(** * Blackjack player-vs-dealer hand detector: the hand evaluator and the
      game loop of [main.py], embedded in Rocq.

    The script reads frames from a camera, asks an object detector for the
    playing cards of each frame, splits them between a dealer zone (upper half)
    and a player zone (lower half), evaluates both hands and reacts to three
    keys.  The detector, the camera and the drawing calls are inputs or
    outputs of the loop; everything that decides a hand value or the state of
    the game is translated below, statement by statement. *)

From Stdlib Require Import ZArith QArith Lia Ascii String.
From stdpp Require Import gmap strings list pretty.
From Equations Require Import Equations.
From Equations.Prop Require Import Logic.

Local Open Scope string_scope.
Local Open Scope Z_scope.

(** ** Python values and built-ins used by the script *)

Module Py.

(** The two exceptions the translated statements can raise. *)
Inductive exn : Set :=
| IndexError   (* list index out of range *)
| ValueError.  (* invalid literal for int() *)

(** A computation either returns or raises. *)
Inductive result (A : Type) : Type :=
| Ok (a : A)
| Raise (e : exn).
Global Arguments Ok {A} a.
Global Arguments Raise {A} e.

Global Instance exn_eq_dec : EqDecision exn.
Proof. solve_decision. Defined.
Global Instance result_eq_dec {A} `{EqDecision A} : EqDecision (result A).
Proof. solve_decision. Defined.

Definition bind {A B} (m : result A) (k : A → result B) : result B :=
  match m with
  | Ok a => k a
  | Raise e => Raise e
  end.

(** [for x in l: st = body st x], stopping at the first exception. *)
Fixpoint for_each {S A} (body : S → A → result S) (l : list A) (st : S)
  : result S :=
  match l with
  | [] => Ok st
  | x :: l' => bind (body st x) (for_each body l')
  end.

(** A [str] is a sequence of code points; the model keeps the code points
    below 256, one per [ascii]. *)

(** [s[:-1]]: every character but the last; the empty string stays empty. *)
Fixpoint drop_last (s : string) : string :=
  match s with
  | EmptyString => EmptyString
  | String c s' =>
      match s' with
      | EmptyString => EmptyString
      | String _ _ => String c (drop_last s')
      end
  end.

(** White space for [int]: tab, line feed, vertical tab, form feed, carriage
    return, space, and (beyond ASCII) U+0085 and U+00A0. *)
Definition is_space (c : ascii) : bool :=
  let n := Z.of_nat (nat_of_ascii c) in
  ((9 <=? n) && (n <=? 13)) || (n =? 32) || (n =? 133) || (n =? 160).

Definition digit_of (c : ascii) : option Z :=
  let n := Z.of_nat (nat_of_ascii c) in
  if (48 <=? n) && (n <=? 57) then Some (n - 48) else None.

Fixpoint lstrip (s : string) : string :=
  match s with
  | EmptyString => EmptyString
  | String c s' => if is_space c then lstrip s' else s
  end.

Fixpoint rstrip (s : string) : string :=
  match s with
  | EmptyString => EmptyString
  | String c s' =>
      match rstrip s' with
      | EmptyString => if is_space c then EmptyString else String c EmptyString
      | r => String c r
      end
  end.

(** Decimal digits, with single underscores allowed between two digits.
    [after_digit] tells whether the previous character was a digit. *)
Fixpoint digits (acc : Z) (after_digit : bool) (s : string) : option Z :=
  match s with
  | EmptyString => if after_digit then Some acc else None
  | String c s' =>
      if Ascii.eqb c "_"%char
      then (if after_digit then digits acc false s' else None)
      else match digit_of c with
           | Some d => digits (10 * acc + d) true s'
           | None => None
           end
  end.

(** The number of digit characters of a literal (underscores do not count). *)
Fixpoint count_digits (s : string) : Z :=
  match s with
  | EmptyString => 0
  | String c s' =>
      match digit_of c with
      | Some _ => 1 + count_digits s'
      | None => count_digits s'
      end
  end.

(** The interpreter's limit on the digits of a decimal literal, at its default
    ([sys.get_int_max_str_digits()]). *)
Definition max_str_digits : Z := 4300.

(** The digits of a literal, refused when there are more than the limit. *)
Definition literal (body : string) : option Z :=
  if count_digits body <=? max_str_digits then digits 0 false body else None.

(** [int(s)] for a [str] in base 10: surrounding white space, an optional
    sign, then the digits.  [None] stands for [ValueError].  Beyond the code
    points kept by the model, [int] also accepts the other Unicode white space
    and decimal digits; the statements about identifiers outside the card
    table are therefore made for any behaviour of [int]
    ([calculate_blackjack_value_with]). *)
Definition int_of_str (s : string) : option Z :=
  match lstrip (rstrip s) with
  | String "+" r => literal r
  | String "-" r => Z.opp <$> literal r
  | body => literal body
  end.

Definition int (s : string) : result Z :=
  match int_of_str s with
  | Some n => Ok n
  | None => Raise ValueError
  end.

(** [l[i]]: a negative index counts from the end; outside
    [-len(l) .. len(l) - 1] the access raises [IndexError]. *)
Definition getitem {A} (l : list A) (i : Z) : result A :=
  let n := Z.of_nat (length l) in
  let j := if i <? 0 then i + n else i in
  if (0 <=? j) && (j <? n)
  then match l !! Z.to_nat j with
       | Some x => Ok x
       | None => Raise IndexError
       end
  else Raise IndexError.

(** [list(set(l))]: the distinct members of [l].  The order Python gives the
    result depends on string hashing; the model takes the order of
    [elements], and [calculate_blackjack_value_Permutation] below shows that
    the order of a hand does not matter to its value. *)
Definition list_set (l : list string) : list string :=
  elements (list_to_set l : gset string).

End Py.

Notation "'let*' x ':=' m 'in' k" := (Py.bind m (λ x, k))
  (at level 10, x name, m at level 100, k at level 200).

Import Py.

(** ** The card table (lines 16-28) *)

Definition classNames : list string :=
  ["10C"; "10D"; "10H"; "10S";
   "2C"; "2D"; "2H"; "2S";
   "3C"; "3D"; "3H"; "3S";
   "4C"; "4D"; "4H"; "4S";
   "5C"; "5D"; "5H"; "5S";
   "6C"; "6D"; "6H"; "6S";
   "7C"; "7D"; "7H"; "7S";
   "8C"; "8D"; "8H"; "8S";
   "9C"; "9D"; "9H"; "9S";
   "AC"; "AD"; "AH"; "AS";
   "JC"; "JD"; "JH"; "JS";
   "KC"; "KD"; "KH"; "KS";
   "QC"; "QD"; "QH"; "QS"].

(** ** Hand evaluation (lines 33-53) *)

(** The body of [for card in hand], on the pair [(value, aces)]. *)
Definition card_step (st : Z * Z) (card : string) : result (Z * Z) :=
  let '(value, aces) := st in
  let rank := drop_last card in
  if bool_decide (rank ∈ ["K"; "Q"; "J"]) then Ok (value + 10, aces)
  else if bool_decide (rank = "A") then Ok (value + 11, aces + 1)
  else let* n := int rank in Ok (value + n, aces).

(** The guard and the body of [while value > 21 and aces > 0]. *)
Definition ace_cond (st : Z * Z) : bool := (21 <? st.1) && (0 <? st.2).
Definition ace_body (st : Z * Z) : Z * Z := (st.1 - 10, st.2 - 1).

Equations? ace_loop (st : Z * Z) : Z * Z by wf (Z.to_nat st.2) lt :=
  ace_loop st with inspect (ace_cond st) := {
    | exist _ true Hc => ace_loop (ace_body st)
    | exist _ false _ => st }.
Proof.
  unfold ace_cond in Hc. apply andb_prop in Hc as [_ Hc].
  apply Z.ltb_lt in Hc. simpl in Hc |- *. lia.
Qed.

Definition calculate_blackjack_value (hand : list string) : result Z :=
  let* st := for_each card_step hand (0, 0) in
  Ok (ace_loop st).1.

(** ** The game loop (lines 56-177) *)

(** The two variables that survive from one frame to the next. *)
Record GameState : Set := {
  game_over : bool;
  winner_message : string
}.

(** Lines 56-57. *)
Definition initial_state : GameState :=
  {| game_over := false; winner_message := "" |}.

(** One detected box, after the conversions of lines 94 and 98: the top edge
    [y1] and the class index [cls], both integers. *)
Record Box : Set := {
  box_y1 : Z;
  box_cls : Z
}.

(** What one iteration reads from the outside, once [cap.read()] has
    delivered an image and the values of the boxes have been converted by
    [int]: the shape of the image, the detector's results (one list of boxes
    per result) and the key code returned by [cv2.waitKey(1)].  A failed read
    ([img] is [None] and [img.shape] raises) and a box value that [int]
    refuses are outside the model. *)
Record Frame : Set := {
  frame_height : Z;
  frame_width : Z;
  frame_results : list (list Box);
  frame_key : Z
}.

Inductive Zone : Set := Dealer | Player.

Global Instance Zone_eq_dec : EqDecision Zone.
Proof. solve_decision. Defined.

(** Lines 74-75. *)
Definition dealer_zone (height width : Z) : Z * Z * Z * Z :=
  (0, 0, width, height / 2).
Definition player_zone (height width : Z) : Z * Z * Z * Z :=
  (0, height / 2, width, height).

(** Lines 105-108: [if y1 < dealer_zone[3] ... elif y1 >= player_zone[1]]. *)
Definition classify (y1 height width : Z) : option Zone :=
  let '(_, _, _, dealer_bottom) := dealer_zone height width in
  let '(_, player_top, _, _) := player_zone height width in
  if y1 <? dealer_bottom then Some Dealer
  else if player_top <=? y1 then Some Player
  else None.

(** Lines 89-108 for one box, on the pair [(dealer_hand, player_hand)]. *)
Definition box_step (height width : Z) (hands : list string * list string)
    (box : Box) : result (list string * list string) :=
  let '(dealer_hand, player_hand) := hands in
  let* card := getitem classNames (box_cls box) in
  match classify (box_y1 box) height width with
  | Some Dealer => Ok ((dealer_hand ++ [card])%list, player_hand)
  | Some Player => Ok (dealer_hand, (player_hand ++ [card])%list)
  | None => Ok (dealer_hand, player_hand)
  end.

(** Lines 65-66 and 82-108: both hands as the two loops leave them. *)
Definition collect_hands (f : Frame) : result (list string * list string) :=
  for_each
    (λ hands boxes,
       for_each (box_step (frame_height f) (frame_width f)) boxes hands)
    (frame_results f) ([], []).

(** Lines 121-122. *)
Definition dedup_hands (hands : list string * list string)
  : list string * list string :=
  (list_set hands.1, list_set hands.2).

Definition aggregate (f : Frame) : result (list string * list string) :=
  let* hands := collect_hands f in Ok (dedup_hands hands).

(** Lines 69-70 and 125-136: the values of the frame.  A non-empty list is
    true in a condition. *)
Definition hand_values (st : GameState) (hands : list string * list string)
  : result (Z * Z) :=
  let '(dealer_hand, player_hand) := hands in
  let dealer_value := 0 in
  let player_value := 0 in
  if negb (game_over st) then
    let* dealer_value :=
      match dealer_hand with
      | [] => Ok dealer_value
      | _ :: _ => calculate_blackjack_value dealer_hand
      end in
    let* player_value :=
      match player_hand with
      | [] => Ok player_value
      | _ :: _ => calculate_blackjack_value player_hand
      end in
    Ok (dealer_value, player_value)
  else Ok (dealer_value, player_value).

(** Lines 159-170. *)
Definition decide_winner (dealer_value player_value : Z) : string :=
  if (21 <? dealer_value) && (21 <? player_value)
  then "Both players busted! No winner."
  else if 21 <? dealer_value then "Dealer busted! Player wins!"
  else if 21 <? player_value then "Player busted! Dealer wins!"
  else if player_value <? dealer_value then "Dealer wins!"
  else if dealer_value <? player_value then "Player wins!"
  else "It's a draw!".

(** [ord('S')], [ord('D')], [ord('q')]. *)
Definition ord_S : Z := 83.
Definition ord_D : Z := 68.
Definition ord_q : Z := 113.

(** Lines 154-177: the three key tests, one after the other.  The boolean is
    true when the loop is left by [break]. *)
Definition handle_key (st : GameState) (dealer_value player_value raw_key : Z)
  : GameState * bool :=
  let key := Z.land raw_key 255 in
  let st :=
    if key =? ord_S
    then {| game_over := true;
            winner_message := decide_winner dealer_value player_value |}
    else st in
  let st :=
    if key =? ord_D
    then {| game_over := false; winner_message := "" |}
    else st in
  (st, key =? ord_q).

(** One iteration of [while True]. *)
Definition frame_step (st : GameState) (f : Frame) : result (GameState * bool) :=
  let* hands := aggregate f in
  let* values := hand_values st hands in
  Ok (handle_key st values.1 values.2 (frame_key f)).

(** The loop over the frames the camera delivers. *)
Fixpoint main_loop (st : GameState) (frames : list Frame) : result GameState :=
  match frames with
  | [] => Ok st
  | f :: frames' =>
      let* r := frame_step st f in
      if r.2 then Ok r.1 else main_loop r.1 frames'
  end.

(** ** The specification's card model and rules, for comparison *)

Module Spec.

Inductive rank : Set :=
| R2 | R3 | R4 | R5 | R6 | R7 | R8 | R9 | R10 | Jack | Queen | King | Ace.
Inductive suit : Set := Clubs | Diamonds | Hearts | Spades.

Record card : Set := { card_rank : rank; card_suit : suit }.

Global Instance rank_eq_dec : EqDecision rank.
Proof. solve_decision. Defined.
Global Instance suit_eq_dec : EqDecision suit.
Proof. solve_decision. Defined.
Global Instance card_eq_dec : EqDecision card.
Proof. solve_decision. Defined.

Definition ranks : list rank :=
  [R2; R3; R4; R5; R6; R7; R8; R9; R10; Jack; Queen; King; Ace].
Definition suits : list suit := [Clubs; Diamonds; Hearts; Spades].

(** The 52 cards. *)
Definition deck : list card :=
  r ← ranks; s ← suits; [ {| card_rank := r; card_suit := s |} ].

Definition rank_symbol (r : rank) : string :=
  match r with
  | R2 => "2" | R3 => "3" | R4 => "4" | R5 => "5" | R6 => "6" | R7 => "7"
  | R8 => "8" | R9 => "9" | R10 => "10"
  | Jack => "J" | Queen => "Q" | King => "K" | Ace => "A"
  end.

Definition suit_symbol (s : suit) : string :=
  match s with
  | Clubs => "C" | Diamonds => "D" | Hearts => "H" | Spades => "S"
  end.

(** The identifier of a card: rank symbol, then suit letter. *)
Definition identifier (c : card) : string :=
  rank_symbol (card_rank c) +:+ suit_symbol (card_suit c).

(** Base points: face value, 10 for a face card, 11 for an Ace. *)
Definition rank_value (r : rank) : Z :=
  match r with
  | R2 => 2 | R3 => 3 | R4 => 4 | R5 => 5 | R6 => 6 | R7 => 7
  | R8 => 8 | R9 => 9 | R10 => 10
  | Jack | Queen | King => 10
  | Ace => 11
  end.

Definition is_ace (c : card) : bool :=
  match card_rank c with Ace => true | _ => false end.

(** The sum of the base points of a hand, every Ace at 11. *)
Definition base_total (hand : list card) : Z :=
  foldr (λ c acc, rank_value (card_rank c) + acc) 0 hand.

(** The number of Aces of a hand. *)
Definition ace_count (hand : list card) : Z :=
  Z.of_nat (length (filter (λ c, is_ace c = true) hand)).

Definition is_bust (value : Z) : bool := 21 <? value.

(** The six verdicts of [End], in the order of their precedence. *)
Inductive verdict : Set :=
| BothBust | DealerBust | PlayerBust | DealerWins | PlayerWins | Draw.

Definition precedence (dealer_value player_value : Z) : list (bool * verdict) :=
  [ (is_bust dealer_value && is_bust player_value, BothBust);
    (is_bust dealer_value, DealerBust);
    (is_bust player_value, PlayerBust);
    (player_value <? dealer_value, DealerWins);
    (dealer_value <? player_value, PlayerWins);
    (true, Draw) ].

(** First match wins. *)
Definition first_match (cases : list (bool * verdict)) : option verdict :=
  snd <$> List.find fst cases.

Definition verdict_of (dealer_value player_value : Z) : option verdict :=
  first_match (precedence dealer_value player_value).

(** The zone of a top edge, with the exact half of the frame height as the
    boundary: Dealer when [topEdgeY < frameHeight / 2], Player otherwise. *)
Definition classify (topEdgeY frameHeight : Z) : Zone :=
  if Qlt_le_dec (inject_Z topEdgeY) (inject_Z frameHeight / 2)%Q
  then Dealer else Player.

End Spec.

(** The text the loop stores for each verdict. *)
Definition message_of (v : Spec.verdict) : string :=
  match v with
  | Spec.BothBust => "Both players busted! No winner."
  | Spec.DealerBust => "Dealer busted! Player wins!"
  | Spec.PlayerBust => "Player busted! Dealer wins!"
  | Spec.DealerWins => "Dealer wins!"
  | Spec.PlayerWins => "Player wins!"
  | Spec.Draw => "It's a draw!"
  end.

(** ** Notions used in the statements *)

(** What a card adds to the Ace counter. *)
Definition ace_increment (c : Spec.card) : Z :=
  if Spec.is_ace c then 1 else 0.

(** A rank string the card loop cannot score: not a face card, not an Ace,
    and not an integer literal. *)
Definition unreadable_rank (rank : string) : Prop :=
  (rank ∉ ["K"; "Q"; "J"]) ∧ (rank ≠ "A") ∧ (int_of_str rank = None).

(** The identifiers whose rank part is handed to [int]: neither a face card
    nor an Ace. *)
Definition scored_by_int (card : string) : Prop :=
  (drop_last card ∉ ["K"; "Q"; "J"]) ∧ (drop_last card ≠ "A").

(** The evaluator with the built-in [int] left open: the same statements as
    [card_step] and [calculate_blackjack_value], for any behaviour of [int]
    on the rank part of an identifier. *)
Section AnyInt.

Variable int_builtin : string → result Z.

Definition card_step_with (st : Z * Z) (card : string) : result (Z * Z) :=
  let '(value, aces) := st in
  let rank := drop_last card in
  if bool_decide (rank ∈ ["K"; "Q"; "J"]) then Ok (value + 10, aces)
  else if bool_decide (rank = "A") then Ok (value + 11, aces + 1)
  else let* n := int_builtin rank in Ok (value + n, aces).

Definition calculate_blackjack_value_with (hand : list string) : result Z :=
  let* st := for_each card_step_with hand (0, 0) in
  Ok (ace_loop st).1.

End AnyInt.

(** How often [name] occurs in a hand. *)
Definition occurrences (name : string) (hand : list string) : nat :=
  length (filter (λ x, x = name) hand).

(** The boxes of a frame, in the order the two loops visit them. *)
Definition frame_boxes (f : Frame) : list Box := concat (frame_results f).

(** The boxes of a frame that show the card [name] in zone [z]. *)
Definition detections (f : Frame) (z : Zone) (name : string) : list Box :=
  filter (λ box,
            classify (box_y1 box) (frame_height f) (frame_width f) = Some z
            ∧ getitem classNames (box_cls box) = Ok name)
         (frame_boxes f).

(** The card names of the boxes that fall in zone [z], in order. *)
Definition zone_names (z : Zone) (height width : Z) (boxes : list Box)
  : list string :=
  omap (λ box,
          if decide (classify (box_y1 box) height width = Some z)
          then match getitem classNames (box_cls box) with
               | Ok name => Some name
               | Raise _ => None
               end
          else None)
       boxes.

Definition hand_of (z : Zone) (hands : list string * list string) : list string :=
  match z with
  | Dealer => hands.1
  | Player => hands.2
  end.

(** Sample frames of a 1280 x 720 camera.  [table_frame]: the Ace of hearts
    seen twice in the upper half and the Queen of spades in the lower half
    (class index -1 is the last entry of the table).  [player_only_frame]:
    nothing in the upper half; King, Queen and five of clubs in the lower. *)
Definition table_frame (key : Z) : Frame :=
  {| frame_height := 720; frame_width := 1280;
     frame_results := [[ {| box_y1 := 10; box_cls := 38 |};
                         {| box_y1 := 12; box_cls := 38 |};
                         {| box_y1 := 400; box_cls := -1 |} ]];
     frame_key := key |}.

Definition player_only_frame (key : Z) : Frame :=
  {| frame_height := 720; frame_width := 1280;
     frame_results := [[ {| box_y1 := 360; box_cls := 44 |};
                         {| box_y1 := 500; box_cls := 48 |};
                         {| box_y1 := 610; box_cls := 16 |} ]];
     frame_key := key |}.

(** ** Further notions: hard totals, class indices, reachable states *)

(** The points of a rank with the Ace at 1. *)
Definition hard_value (r : Spec.rank) : Z :=
  match r with
  | Spec.Ace => 1
  | _ => Spec.rank_value r
  end.

(** The total of a hand with every Ace at 1. *)
Definition hard_total (hand : list Spec.card) : Z :=
  foldr (λ c acc, hard_value (Spec.card_rank c) + acc) 0 hand.

(** The class indices for which [classNames[cls]] does not raise. *)
Definition index_ok (box : Box) : Prop := -52 ≤ box_cls box < 52.

(** What the two state variables can hold together: no message while the game
    is in progress, one of the six verdict messages once it is over. *)
Definition state_ok (st : GameState) : Prop :=
  if game_over st
  then ∃ v : Spec.verdict, winner_message st = message_of v
  else winner_message st = "".

(** ** What a frame shows (lines 125-148) *)

(** One call of [cvzone.putTextRect]: the text and its position. *)
Record Text : Set := {
  text_content : string;
  text_x : Z;
  text_y : Z
}.

(** The f-strings of lines 128 and 134. *)
Definition hand_label (who : string) (value : Z) : string :=
  who +:+ ": " +:+ (if 21 <? value then "BUST" else pretty value).

(** The texts drawn in one frame, in the order of the calls. *)
Definition frame_overlay (st : GameState) (f : Frame)
    (hands : list string * list string) : result (list Text) :=
  let '(dealer_hand, player_hand) := hands in
  let height := frame_height f in
  let width := frame_width f in
  let separator_y := height / 2 in
  let* live :=
    if negb (game_over st) then
      let* dealer_texts :=
        match dealer_hand with
        | [] => Ok []
        | _ :: _ =>
            let* dealer_value := calculate_blackjack_value dealer_hand in
            Ok [ {| text_content := hand_label "Dealer" dealer_value;
                    text_x := 50; text_y := 50 |} ]
        end in
      let* player_texts :=
        match player_hand with
        | [] => Ok []
        | _ :: _ =>
            let* player_value := calculate_blackjack_value player_hand in
            Ok [ {| text_content := hand_label "Player" player_value;
                    text_x := 50; text_y := separator_y + 50 |} ]
        end in
      Ok (dealer_texts ++ player_texts)%list
    else Ok [] in
  Ok (live ++
      (if game_over st
       then [ {| text_content := winner_message st;
                 text_x := width / 2 - 200; text_y := height / 2 - 50 |} ]
       else []))%list.

Definition frame_texts (st : GameState) (f : Frame) : result (list Text) :=
  let* hands := aggregate f in frame_overlay st f hands.

(** ** The card table and the card model agree *)

Lemma card_in_deck (c : Spec.card) : c ∈ Spec.deck.
Proof.
  destruct c as [r s].
  apply (bool_decide_unpack _). destruct r, s; vm_compute; exact I.
Qed.

Lemma identifier_in_classNames (c : Spec.card) : Spec.identifier c ∈ classNames.
Proof.
  destruct c as [r s].
  apply (bool_decide_unpack _). destruct r, s; vm_compute; exact I.
Qed.

Lemma classNames_identifiers :
  Forall (λ name, name ∈ Spec.identifier <$> Spec.deck) classNames.
Proof. apply (bool_decide_unpack _). vm_compute. exact I. Qed.

Lemma classNames_spec (name : string) :
  name ∈ classNames ↔ ∃ c : Spec.card, name = Spec.identifier c.
Proof.
  split.
  - intros Hin.
    pose proof (proj1 (Forall_forall _ _) classNames_identifiers _ Hin) as H.
    apply list_elem_of_fmap in H as (c & -> & _). by exists c.
  - intros [c ->]. apply identifier_in_classNames.
Qed.

Lemma classNames_NoDup : NoDup classNames.
Proof. apply (bool_decide_unpack _). vm_compute. exact I. Qed.

Lemma classNames_length : length classNames = 52%nat.
Proof. reflexivity. Qed.

(** ** The card loop on valid identifiers *)

Lemma drop_last_identifier (c : Spec.card) :
  drop_last (Spec.identifier c) = Spec.rank_symbol (Spec.card_rank c).
Proof. destruct c as [[] []]; reflexivity. Qed.

Lemma card_step_identifier (value aces : Z) (c : Spec.card) :
  card_step (value, aces) (Spec.identifier c) =
  Ok (value + Spec.rank_value (Spec.card_rank c), aces + ace_increment c).
Proof.
  unfold card_step. rewrite drop_last_identifier.
  destruct c as [r s]; destruct r; simpl Spec.rank_symbol.
  all: repeat match goal with
    | |- context [bool_decide ?P] =>
        let b := fresh "b" in
        set (b := bool_decide P); vm_compute in b; subst b; cbv iota
    end.
  all: repeat match goal with
    | |- context [int ?symbol] =>
        let v := eval vm_compute in (int symbol) in
        change (int symbol) with v
    end.
  all: unfold ace_increment, Spec.is_ace; cbn [bind Spec.card_rank Spec.rank_value].
  all: f_equal; f_equal; lia.
Qed.

Lemma for_each_identifiers (hand : list Spec.card) (value aces : Z) :
  for_each card_step (Spec.identifier <$> hand) (value, aces) =
  Ok (value + Spec.base_total hand, aces + Spec.ace_count hand).
Proof.
  revert value aces.
  induction hand as [|c hand IH]; intros value aces.
  - unfold Spec.ace_count. simpl. f_equal. f_equal; lia.
  - rewrite fmap_cons. cbn [for_each]. rewrite card_step_identifier.
    cbn [bind]. rewrite IH. f_equal.
    unfold Spec.ace_count, ace_increment. rewrite filter_cons.
    cbn [Spec.base_total foldr]. fold (Spec.base_total hand).
    case_decide as Hace; rewrite ?length_cons, ?Nat2Z.inj_succ;
      destruct (Spec.is_ace c); try done; f_equal; lia.
Qed.

(** ** The Ace loop *)

Lemma ace_loop_eq (st : Z * Z) :
  ace_loop st = if ace_cond st then ace_loop (ace_body st) else st.
Proof.
  funelim (ace_loop st);
    match goal with H : ace_cond _ = _ |- _ => rewrite H end; reflexivity.
Qed.

Lemma iter_ace_body (n : nat) (value aces : Z) :
  Nat.iter n ace_body (value, aces) = (value - 10 * Z.of_nat n, aces - Z.of_nat n).
Proof.
  induction n as [|n IH].
  - simpl. f_equal; lia.
  - rewrite Nat.iter_succ, IH. unfold ace_body. simpl. f_equal; lia.
Qed.

(** The loop is the [n]-fold iteration of its body for the first [n] at which
    the guard fails, and [n] is at most the number of Aces counted. *)
Lemma ace_loop_iter (st : Z * Z) :
  ∃ n : nat,
    Z.of_nat n ≤ Z.max 0 st.2 ∧
    ace_loop st = Nat.iter n ace_body st ∧
    ace_cond (Nat.iter n ace_body st) = false ∧
    ∀ m : nat, (m < n)%nat → ace_cond (Nat.iter m ace_body st) = true.
Proof.
  remember (Z.to_nat st.2) as k eqn:Hk. revert st Hk.
  induction k as [k IH] using lt_wf_ind. intros st Hk.
  rewrite ace_loop_eq. destruct (ace_cond st) eqn:Hc.
  - assert (0 < st.2) as Hpos.
    { unfold ace_cond in Hc. apply andb_prop in Hc as [_ Hc]. lia. }
    destruct (IH (Z.to_nat (ace_body st).2)) with (st := ace_body st)
      as (n & Hn & Heq & Hstop & Hrun).
    { subst k. simpl. lia. }
    { reflexivity. }
    exists (S n). rewrite !Nat.iter_succ_r. simpl in Hn.
    repeat split; [lia | done | done |].
    intros [|m] Hm; [done|]. rewrite Nat.iter_succ_r. apply Hrun. lia.
  - exists 0%nat. simpl. repeat split; [lia | done |]. intros m Hm. lia.
Qed.


Lemma calculate_blackjack_value_identifiers (hand : list Spec.card) :
  calculate_blackjack_value (Spec.identifier <$> hand) =
  Ok (ace_loop (Spec.base_total hand, Spec.ace_count hand)).1.
Proof.
  unfold calculate_blackjack_value.
  rewrite for_each_identifiers. cbn [bind]. by rewrite !Z.add_0_l.
Qed.

(** ** One card at a time: what the card loop adds, and when it raises *)

Lemma card_step_cases (card : string) :
  (unreadable_rank (drop_last card) ∧
   ∀ value aces, card_step (value, aces) card = Raise ValueError)
  ∨ (¬ unreadable_rank (drop_last card) ∧
     ∃ points count : Z,
       ∀ value aces, card_step (value, aces) card = Ok (value + points, aces + count)).
Proof.
  unfold unreadable_rank, card_step.
  case_bool_decide as Hface.
  { right. split; [tauto|]. exists 10, 0. intros. f_equal. f_equal. lia. }
  case_bool_decide as Hace.
  { right. split; [tauto|]. by exists 11, 1. }
  unfold int. destruct (int_of_str (drop_last card)) as [n|] eqn:Hint.
  - right. split; [intros (_ & _ & ?); done|].
    exists n, 0. intros. simpl. f_equal. f_equal. lia.
  - left. done.
Qed.

(** The order of the cards of a hand does not change its value. *)
Lemma for_each_card_step_Permutation (hand1 hand2 : list string) :
  hand1 ≡ₚ hand2 →
  ∀ st, for_each card_step hand1 st = for_each card_step hand2 st.
Proof.
  induction 1 as [|x l1 l2 _ IH|x y l|l1 l2 l3 _ IH1 _ IH2]; intros [value aces].
  - reflexivity.
  - cbn [for_each]. destruct (card_step (value, aces) x); cbn [bind];
      [apply IH|done].
  - cbn [for_each].
    destruct (card_step_cases x) as [[_ Hx]|[_ (px & ix & Hx)]],
             (card_step_cases y) as [[_ Hy]|[_ (py & iy & Hy)]];
      rewrite ?Hx, ?Hy; cbn [bind]; rewrite ?Hx, ?Hy; cbn [bind]; try done.
    do 2 f_equal; lia.
  - by rewrite IH1, IH2.
Qed.

Lemma calculate_blackjack_value_Permutation (hand1 hand2 : list string) :
  hand1 ≡ₚ hand2 →
  calculate_blackjack_value hand1 = calculate_blackjack_value hand2.
Proof.
  intros H. unfold calculate_blackjack_value.
  by rewrite (for_each_card_step_Permutation _ _ H).
Qed.

Lemma valid_hand_cards (hand : list string) :
  Forall (λ name, name ∈ classNames) hand →
  ∃ cards : list Spec.card, hand = Spec.identifier <$> cards.
Proof.
  induction 1 as [|name hand Hname _ [cards ->]].
  - by exists [].
  - apply classNames_spec in Hname as [c ->]. by exists (c :: cards).
Qed.

(** ** The evaluator for any [int] *)

Lemma card_step_with_raise (int_builtin : string → result Z) (st : Z * Z)
    (card : string) (e : exn) :
  card_step_with int_builtin st card = Raise e ↔
  scored_by_int card ∧ int_builtin (drop_last card) = Raise e.
Proof.
  unfold card_step_with, scored_by_int. destruct st as [value aces].
  case_bool_decide as Hface.
  { split; [done|]. intros [[Hn _] _]. exfalso. by apply Hn. }
  case_bool_decide as Hace.
  { split; [done|]. intros [[_ Hn] _]. exfalso. by apply Hn. }
  destruct (int_builtin (drop_last card)) as [n|e0]; cbn [bind].
  - split; [done|]. by intros [_ [=]].
  - split; [by intros [= ->]|]. by intros [_ [= ->]].
Qed.

Lemma for_each_card_step_with_raise (int_builtin : string → result Z)
    (hand : list string) (st : Z * Z) (e : exn) :
  for_each (card_step_with int_builtin) hand st = Raise e →
  ∃ card, card ∈ hand ∧ scored_by_int card ∧
          int_builtin (drop_last card) = Raise e.
Proof.
  revert st. induction hand as [|card hand IH]; intros st; cbn [for_each];
    [done|].
  destruct (card_step_with int_builtin st card) as [st'|e'] eqn:Hstep;
    cbn [bind].
  - intros (c & Hin & Hc)%IH. exists c. split; [by right|done].
  - intros [= ->]. apply card_step_with_raise in Hstep.
    exists card. split; [left|done].
Qed.

Lemma for_each_card_step_with_raises (int_builtin : string → result Z)
    (hand : list string) (st : Z * Z) (card : string) (e : exn) :
  card ∈ hand → scored_by_int card →
  int_builtin (drop_last card) = Raise e →
  ∃ e', for_each (card_step_with int_builtin) hand st = Raise e'.
Proof.
  intros Hin Hscored Hint. revert st.
  induction hand as [|c hand IH]; intros st; [by apply elem_of_nil in Hin|].
  cbn [for_each].
  destruct (card_step_with int_builtin st c) as [st'|e'] eqn:Hstep; cbn [bind];
    [|by exists e'].
  apply elem_of_cons in Hin as [<-|Hin]; [|by apply IH].
  assert (card_step_with int_builtin st card = Raise e) as Hraise
    by (by apply card_step_with_raise).
  congruence.
Qed.

(** ** Hand evaluation: the claims *)

(** C1.  For a hand with [k] Aces, [calculate_blackjack_value] returns the
    total with every Ace at 11, lowered by 10 for each of [d] Aces, where
    [d <= k], every one of the [d] reinterpretations took place while the
    total was above 21, and at the end the total is at most 21 or all [k] Aces
    have been lowered.  A lone Ace is worth 11, two Aces 12, two Aces and a
    nine 21. *)
Theorem ace_adjustment_value :
  (∀ hand : list Spec.card,
     ∃ d : Z,
       0 ≤ d ≤ Spec.ace_count hand ∧
       calculate_blackjack_value (Spec.identifier <$> hand)
         = Ok (Spec.base_total hand - 10 * d) ∧
       (Spec.base_total hand - 10 * d ≤ 21 ∨ d = Spec.ace_count hand) ∧
       (∀ j : Z, 0 ≤ j < d → 21 < Spec.base_total hand - 10 * j))
  ∧ calculate_blackjack_value ["AH"] = Ok 11
  ∧ calculate_blackjack_value ["AH"; "AD"] = Ok 12
  ∧ calculate_blackjack_value ["AH"; "AD"; "9C"] = Ok 21.
Proof.
  split; [|by repeat split].
  intros hand. rewrite calculate_blackjack_value_identifiers.
  set (total := Spec.base_total hand). set (k := Spec.ace_count hand).
  assert (0 ≤ k) as Hk by (subst k; unfold Spec.ace_count; lia).
  destruct (ace_loop_iter (total, k)) as (n & Hn & Heq & Hstop & Hrun).
  cbn [snd] in Hn. rewrite Heq. rewrite iter_ace_body in Hstop |- *.
  exists (Z.of_nat n). repeat split; try lia; cbn [fst].
  - unfold ace_cond in Hstop. cbn [fst snd] in Hstop.
    apply andb_false_iff in Hstop as [Hstop|Hstop]; lia.
  - intros j Hj. specialize (Hrun (Z.to_nat j)).
    rewrite iter_ace_body in Hrun. unfold ace_cond in Hrun.
    cbn [fst snd] in Hrun. rewrite Z2Nat.id in Hrun by lia.
    apply andb_prop in Hrun as [Hrun _]; lia.
Qed.

Lemma ace_adjustment_value_witness :
  ∃ d : Z,
    0 ≤ d ≤ 2 ∧
    calculate_blackjack_value ["AH"; "AD"; "9C"] = Ok (31 - 10 * d) ∧
    (31 - 10 * d ≤ 21 ∨ d = 2) ∧
    (∀ j : Z, 0 ≤ j < d → 21 < 31 - 10 * j).
Proof.
  exact (proj1 ace_adjustment_value
           [ {| Spec.card_rank := Spec.Ace; Spec.card_suit := Spec.Hearts |};
             {| Spec.card_rank := Spec.Ace; Spec.card_suit := Spec.Diamonds |};
             {| Spec.card_rank := Spec.R9; Spec.card_suit := Spec.Clubs |} ]).
Defined.

(** C6.  The Ace loop stops after at most [aces] rounds: its result is the
    [n]-fold iteration of its body for some [n <= max 0 aces], the guard held
    before each of the [n] rounds and fails after the last, and every round
    lowers the total by exactly 10 and the counter by 1.  When the total is
    at most 21 on entry the body does not run at all, Aces or not. *)
Theorem ace_loop_terminates :
  (∀ value aces : Z,
     ∃ n : nat,
       Z.of_nat n ≤ Z.max 0 aces ∧
       ace_loop (value, aces) = Nat.iter n ace_body (value, aces) ∧
       ace_loop (value, aces) = (value - 10 * Z.of_nat n, aces - Z.of_nat n) ∧
       ace_cond (ace_loop (value, aces)) = false ∧
       (∀ m : nat, (m < n)%nat →
                   ace_cond (Nat.iter m ace_body (value, aces)) = true))
  ∧ (∀ st : Z * Z, (ace_body st).1 = st.1 - 10 ∧ (ace_body st).2 = st.2 - 1)
  ∧ (∀ value aces : Z,
       value ≤ 21 →
       ace_cond (value, aces) = false ∧ ace_loop (value, aces) = (value, aces)).
Proof.
  split; [|split].
  - intros value aces.
    destruct (ace_loop_iter (value, aces)) as (n & Hn & Heq & Hstop & Hrun).
    exists n. rewrite Heq. repeat split; try done. apply iter_ace_body.
  - by intros [value aces].
  - intros value aces Hle.
    assert (ace_cond (value, aces) = false) as Hc.
    { unfold ace_cond. cbn [fst]. apply andb_false_iff. left. lia. }
    split; [exact Hc|]. by rewrite ace_loop_eq, Hc.
Qed.

Lemma ace_loop_terminates_witness :
  11 ≤ 21 ∧ ace_cond (11, 1) = false ∧ ace_loop (11, 1) = (11, 1).
Proof.
  split; [lia|].
  apply (proj2 (proj2 ace_loop_terminates) 11 1). lia.
Defined.

(** C9.  A hand without Aces is worth the sum of its cards' rank values
    (face value for 2 to 10, 10 for Jack, Queen and King); the empty hand is
    worth 0, which is not a bust. *)
Theorem non_ace_hand_value :
  (∀ hand : list Spec.card,
     Forall (λ c, Spec.card_rank c ≠ Spec.Ace) hand →
     calculate_blackjack_value (Spec.identifier <$> hand)
       = Ok (Spec.base_total hand))
  ∧ calculate_blackjack_value [] = Ok 0
  ∧ Spec.is_bust 0 = false.
Proof.
  split; [|by split].
  intros hand Hhand. rewrite calculate_blackjack_value_identifiers.
  assert (Spec.ace_count hand = 0) as ->.
  { unfold Spec.ace_count. induction Hhand as [|c hand Hc _ IH]; [done|].
    rewrite filter_cons. case_decide as Hace; [|exact IH].
    unfold Spec.is_ace in Hace. destruct (Spec.card_rank c); done. }
  rewrite ace_loop_eq. unfold ace_cond. cbn [snd].
  by rewrite Z.ltb_irrefl, andb_false_r.
Qed.

Lemma non_ace_hand_value_witness :
  Forall (λ c, Spec.card_rank c ≠ Spec.Ace)
    [ {| Spec.card_rank := Spec.King; Spec.card_suit := Spec.Spades |};
      {| Spec.card_rank := Spec.R7; Spec.card_suit := Spec.Hearts |} ]
  ∧ calculate_blackjack_value ["KS"; "7H"] = Ok 17.
Proof.
  assert (Forall (λ c, Spec.card_rank c ≠ Spec.Ace)
            [ {| Spec.card_rank := Spec.King; Spec.card_suit := Spec.Spades |};
              {| Spec.card_rank := Spec.R7; Spec.card_suit := Spec.Hearts |} ])
    as H.
  { repeat constructor; discriminate. }
  split; [exact H|]. exact (proj1 non_ace_hand_value _ H).
Defined.

(** C3 as the specification states it fails: an identifier outside the card
    table whose rank part is readable is scored like a card. *)
Lemma invalid_identifier_accepted :
  ("AX" ∉ classNames) ∧ calculate_blackjack_value ["AX"] = Ok 11 ∧
  ("11H" ∉ classNames) ∧ calculate_blackjack_value ["11H"] = Ok 11.
Proof.
  repeat split; try reflexivity.
  all: apply (bool_decide_unpack _); vm_compute; exact I.
Qed.

(** C3, amended.  A hand made of names of the card table is evaluated without
    an exception.  The evaluator never looks a name up in the table: whatever
    [int] does, an evaluation raises exactly when [int] raises on the rank
    part (all characters but the last) of some member whose rank part is
    neither K, Q, J nor A, and the exception is one that [int] raised there,
    which nothing in the evaluator catches; for a [str] that is
    [ValueError]. *)
Theorem evaluation_failures :
  (∀ hand : list string,
     Forall (λ name, name ∈ classNames) hand →
     ∃ value : Z, calculate_blackjack_value hand = Ok value)
  ∧ calculate_blackjack_value = calculate_blackjack_value_with int
  ∧ (∀ (int_builtin : string → result Z) (hand : list string) (e : exn),
       calculate_blackjack_value_with int_builtin hand = Raise e →
       ∃ card, card ∈ hand ∧ scored_by_int card ∧
               int_builtin (drop_last card) = Raise e)
  ∧ (∀ (int_builtin : string → result Z) (hand : list string) (card : string)
       (e : exn),
       card ∈ hand → scored_by_int card →
       int_builtin (drop_last card) = Raise e →
       ∃ e', calculate_blackjack_value_with int_builtin hand = Raise e')
  ∧ (∀ (hand : list string) (e : exn),
       calculate_blackjack_value hand = Raise e → e = ValueError).
Proof.
  split; [|split; [|split; [|split]]].
  - intros hand Hhand. apply valid_hand_cards in Hhand as [cards ->].
    rewrite calculate_blackjack_value_identifiers. eauto.
  - reflexivity.
  - intros int_builtin hand e. unfold calculate_blackjack_value_with.
    destruct (for_each _ hand (0, 0)) as [st|e'] eqn:Hloop; [done|].
    cbn [bind]. intros [= ->].
    by apply for_each_card_step_with_raise in Hloop.
  - intros int_builtin hand card e Hin Hscored Hint.
    destruct (for_each_card_step_with_raises int_builtin hand (0, 0) card e
                Hin Hscored Hint) as [e' He'].
    exists e'. unfold calculate_blackjack_value_with. by rewrite He'.
  - intros hand e Hraise.
    change (calculate_blackjack_value hand)
      with (calculate_blackjack_value_with int hand) in Hraise.
    unfold calculate_blackjack_value_with in Hraise.
    destruct (for_each _ hand (0, 0)) as [st|e'] eqn:Hloop; [done|].
    cbn [bind] in Hraise. injection Hraise as ->.
    apply for_each_card_step_with_raise in Hloop as (card & _ & _ & Hint).
    unfold int in Hint. destruct (int_of_str (drop_last card)); congruence.
Qed.

Lemma evaluation_failures_witness :
  Forall (λ name, name ∈ classNames) ["AH"; "10C"] ∧
  ∃ value : Z, calculate_blackjack_value ["AH"; "10C"] = Ok value.
Proof.
  assert (Forall (λ name, name ∈ classNames) ["AH"; "10C"]) as H.
  { apply (bool_decide_unpack _). vm_compute. exact I. }
  split; [exact H|]. exact (proj1 evaluation_failures _ H).
Defined.

(** ** Zones *)

Lemma classify_cases (y1 height width : Z) :
  classify y1 height width =
  if y1 <? height `div` 2 then Some Dealer else Some Player.
Proof.
  unfold classify, dealer_zone, player_zone.
  destruct (Z.ltb_spec y1 (height `div` 2)) as [Hlt|Hge]; [done|].
  by rewrite (proj2 (Z.leb_le _ _) Hge).
Qed.

Lemma Spec_classify_even (y1 half : Z) :
  Spec.classify y1 (2 * half) = if y1 <? half then Dealer else Player.
Proof.
  unfold Spec.classify.
  destruct (Qlt_le_dec _ _) as [H|H], (Z.ltb_spec y1 half) as [H'|H']; try done;
    exfalso; revert H; unfold Qlt, Qle, Qdiv, Qmult, Qinv, inject_Z; simpl; lia.
Qed.

(** C4 as the specification states it, with the exact half of the height as
    the boundary, fails for a frame of odd height: row 360 of a 721-row frame
    lies above 360.5, and the loop puts it in the player's hand. *)
Lemma classify_odd_height :
  0 ≤ 360 < 721 ∧
  Spec.classify 360 721 = Dealer ∧
  classify 360 721 1280 = Some Player.
Proof. repeat split; try reflexivity; lia. Qed.

(** C4, amended.  Every top edge gets exactly one zone, whatever the frame:
    Dealer when it lies above row [height // 2] (the floor of half the height)
    and Player from that row on.  For a frame of even height this is the
    exact half. *)
Theorem classify_exactly_one_zone :
  ∀ y1 height width : Z,
    (classify y1 height width = Some Dealer ↔ y1 < height `div` 2) ∧
    (classify y1 height width = Some Player ↔ height `div` 2 ≤ y1) ∧
    classify y1 height width ≠ None ∧
    classify y1 (2 * height) width = Some (Spec.classify y1 (2 * height)).
Proof.
  intros y1 height width. rewrite !classify_cases, Spec_classify_even.
  replace ((2 * height) `div` 2) with height
    by (rewrite Z.mul_comm; symmetry; apply Z.div_mul; lia).
  destruct (Z.ltb_spec y1 (height `div` 2)), (Z.ltb_spec y1 height);
    repeat split; intros; try done; try lia.
Qed.

Lemma classify_exactly_one_zone_witness :
  (classify 360 721 1280 = Some Dealer ↔ 360 < 721 `div` 2) ∧
  (classify 360 721 1280 = Some Player ↔ 721 `div` 2 ≤ 360) ∧
  classify 360 721 1280 ≠ None ∧
  classify 360 (2 * 721) 1280 = Some (Spec.classify 360 (2 * 721)).
Proof. exact (classify_exactly_one_zone 360 721 1280). Defined.

(** ** Collecting and deduplicating the hands *)

Lemma for_each_box_step (height width : Z) (boxes : list Box)
    (dealer_hand player_hand : list string) (hands : list string * list string) :
  for_each (box_step height width) boxes (dealer_hand, player_hand) = Ok hands →
  hands = ((dealer_hand ++ zone_names Dealer height width boxes)%list,
           (player_hand ++ zone_names Player height width boxes)%list).
Proof.
  revert dealer_hand player_hand.
  induction boxes as [|box boxes IH]; intros dealer_hand player_hand.
  - cbn. intros [= <-]. by rewrite !app_nil_r.
  - cbn [for_each]. unfold box_step at 1, zone_names. cbn [omap list_omap].
    destruct (getitem classNames (box_cls box)) as [card|e]; [|done].
    cbn [bind]. rewrite classify_cases.
    destruct (box_y1 box <? height `div` 2); cbn [bind].
    + intros H. apply IH in H as ->.
      rewrite decide_True by done. rewrite decide_False by done.
      by rewrite <- app_assoc.
    + intros H. apply IH in H as ->.
      rewrite decide_False by done. rewrite decide_True by done.
      by rewrite <- app_assoc.
Qed.

Lemma zone_names_app (z : Zone) (height width : Z) (boxes1 boxes2 : list Box) :
  zone_names z height width (boxes1 ++ boxes2)%list =
  (zone_names z height width boxes1 ++ zone_names z height width boxes2)%list.
Proof. apply omap_app. Qed.

Lemma collect_hands_names (f : Frame) (hands : list string * list string) :
  collect_hands f = Ok hands →
  hands = (zone_names Dealer (frame_height f) (frame_width f) (frame_boxes f),
           zone_names Player (frame_height f) (frame_width f) (frame_boxes f)).
Proof.
  unfold collect_hands, frame_boxes.
  set (height := frame_height f). set (width := frame_width f).
  assert (∀ results dealer_hand player_hand,
            for_each (λ hands boxes, for_each (box_step height width) boxes hands)
                     results (dealer_hand, player_hand) = Ok hands →
            hands =
              ((dealer_hand ++ zone_names Dealer height width (concat results))%list,
               (player_hand ++ zone_names Player height width (concat results))%list))
    as Hgen.
  { induction results as [|boxes results IH]; intros dealer_hand player_hand.
    - cbn. intros [= <-]. by rewrite !app_nil_r.
    - cbn [for_each concat].
      destruct (for_each (box_step height width) boxes (dealer_hand, player_hand))
        as [hands1|e] eqn:Hboxes; [|done].
      apply for_each_box_step in Hboxes as ->. cbn [bind].
      intros H. apply IH in H as ->.
      by rewrite !zone_names_app, <- !app_assoc. }
  intros H. by apply Hgen in H.
Qed.

Lemma elem_of_zone_names (z : Zone) (height width : Z) (boxes : list Box)
    (name : string) :
  name ∈ zone_names z height width boxes ↔
  ∃ box, box ∈ boxes ∧ classify (box_y1 box) height width = Some z
         ∧ getitem classNames (box_cls box) = Ok name.
Proof.
  unfold zone_names. rewrite list_elem_of_omap. split.
  - intros (box & Hin & Hbox). exists box. split; [done|].
    case_decide as Hz; [|done].
    destruct (getitem classNames (box_cls box)); naive_solver.
  - intros (box & Hin & Hz & Hname). exists box. split; [done|].
    by rewrite decide_True, Hname.
Qed.

Lemma detections_zone_names (f : Frame) (z : Zone) (name : string) :
  (1 ≤ length (detections f z name))%nat ↔
  name ∈ zone_names z (frame_height f) (frame_width f) (frame_boxes f).
Proof.
  rewrite elem_of_zone_names. unfold detections. split.
  - destruct (filter _ _) as [|box l] eqn:Hfilter; [simpl; lia|]. intros _.
    assert (box ∈ box :: l) as Hin by left. rewrite <- Hfilter in Hin.
    apply list_elem_of_filter in Hin as [[Hz Hname] Hin]. eauto.
  - intros (box & Hin & Hz & Hname).
    assert (box ∈ filter
              (λ box, classify (box_y1 box) (frame_height f) (frame_width f) = Some z
                      ∧ getitem classNames (box_cls box) = Ok name)
              (frame_boxes f)) as Hbox
      by (apply list_elem_of_filter; done).
    destruct (filter _ _); [by apply elem_of_nil in Hbox|simpl; lia].
Qed.

Lemma occurrences_NoDup (name : string) (hand : list string) :
  NoDup hand → name ∈ hand → occurrences name hand = 1%nat.
Proof.
  unfold occurrences. induction 1 as [|x hand Hx Hnodup IH]; intros Hin.
  - by apply elem_of_nil in Hin.
  - rewrite filter_cons. case_decide as Heq.
    + subst x. simpl. f_equal.
      destruct (filter _ hand) as [|y l] eqn:Hfilter; [done|].
      assert (y ∈ y :: l) as Hy by left. rewrite <- Hfilter in Hy.
      apply list_elem_of_filter in Hy as [-> Hy]. done.
    + apply elem_of_cons in Hin as [->|Hin]; [done|]. by apply IH.
Qed.

Lemma occurrences_list_set (name : string) (hand : list string) :
  name ∈ hand → occurrences name (list_set hand) = 1%nat.
Proof.
  intros Hin. apply occurrences_NoDup.
  - unfold list_set. apply NoDup_elements.
  - unfold list_set. by rewrite elem_of_elements, elem_of_list_to_set.
Qed.

Lemma list_set_nil : list_set [] = [].
Proof. reflexivity. Qed.

Lemma list_set_Permutation (hand : list string) :
  NoDup hand → list_set hand ≡ₚ hand.
Proof. intros H. unfold list_set. by apply elements_list_to_set. Qed.

(** C7.  When a card name is detected [N >= 1] times in one zone of a frame,
    the hand that [list(set(...))] leaves for that zone holds the name exactly
    once. *)
Theorem dedup_collapses_repeats :
  ∀ (f : Frame) (hands : list string * list string) (z : Zone) (name : string)
    (N : nat),
    aggregate f = Ok hands →
    length (detections f z name) = N →
    (1 ≤ N)%nat →
    occurrences name (hand_of z hands) = 1%nat.
Proof.
  intros f hands z name N Hagg HN Hpos. subst N.
  apply detections_zone_names in Hpos.
  unfold aggregate in Hagg.
  destruct (collect_hands f) as [raw|e] eqn:Hraw; [|done].
  apply collect_hands_names in Hraw as ->. cbn in Hagg.
  injection Hagg as <-. unfold dedup_hands.
  destruct z; cbn [hand_of fst snd]; by apply occurrences_list_set.
Qed.

Lemma dedup_collapses_repeats_witness :
  aggregate (table_frame 255) = Ok (["AH"], ["QS"]) ∧
  length (detections (table_frame 255) Dealer "AH") = 2%nat ∧
  occurrences "AH" ["AH"] = 1%nat.
Proof.
  assert (aggregate (table_frame 255) = Ok (["AH"], ["QS"])) as Hagg
    by reflexivity.
  assert (length (detections (table_frame 255) Dealer "AH") = 2%nat) as Hlen
    by reflexivity.
  split; [exact Hagg|]. split; [exact Hlen|].
  apply (dedup_collapses_repeats (table_frame 255) (["AH"], ["QS"]) Dealer "AH" 2
           Hagg Hlen).
  lia.
Defined.

(** ** The key handler *)

Lemma message_of_inj (v1 v2 : Spec.verdict) :
  message_of v1 = message_of v2 → v1 = v2.
Proof. destruct v1, v2; simpl; intros H; done. Qed.

Lemma decide_winner_verdict (dealer_value player_value : Z) :
  ∃ v, Spec.verdict_of dealer_value player_value = Some v ∧
       decide_winner dealer_value player_value = message_of v.
Proof.
  unfold Spec.verdict_of, Spec.first_match, Spec.precedence, Spec.is_bust,
    decide_winner. cbn [List.find fst].
  destruct (21 <? dealer_value), (21 <? player_value); cbn; eauto.
  destruct (player_value <? dealer_value); cbn; eauto.
  destruct (dealer_value <? player_value); cbn; eauto.
Qed.

Lemma handle_key_end (st : GameState) (dealer_value player_value raw_key : Z) :
  Z.land raw_key 255 = ord_S →
  handle_key st dealer_value player_value raw_key =
  ({| game_over := true;
      winner_message := decide_winner dealer_value player_value |}, false).
Proof. intros H. unfold handle_key. by rewrite H. Qed.

Lemma handle_key_reset (st : GameState) (dealer_value player_value raw_key : Z) :
  Z.land raw_key 255 = ord_D →
  handle_key st dealer_value player_value raw_key =
  ({| game_over := false; winner_message := "" |}, false).
Proof. intros H. unfold handle_key. by rewrite H. Qed.

(** C2.  When the End key arrives while the game is in progress, the game is
    over and the stored message is the one of the first matching case among:
    both above 21; dealer above 21; player above 21; dealer above player;
    player above dealer; otherwise a draw.  End(22, 18) gives the
    dealer-busted message, End(20, 20) the draw, End(17, 19) the player's
    win. *)
Theorem end_verdict_precedence :
  (∀ (st : GameState) (dealer_value player_value raw_key : Z),
     game_over st = false →
     Z.land raw_key 255 = ord_S →
     ∃ v : Spec.verdict,
       Spec.verdict_of dealer_value player_value = Some v ∧
       handle_key st dealer_value player_value raw_key =
         ({| game_over := true; winner_message := message_of v |}, false))
  ∧ decide_winner 22 18 = "Dealer busted! Player wins!"
  ∧ decide_winner 20 20 = "It's a draw!"
  ∧ decide_winner 17 19 = "Player wins!".
Proof.
  split; [|by repeat split].
  intros st dealer_value player_value raw_key _ Hkey.
  destruct (decide_winner_verdict dealer_value player_value) as (v & Hv & Hmsg).
  exists v. split; [done|]. by rewrite handle_key_end, Hmsg.
Qed.

Lemma end_verdict_precedence_witness :
  game_over initial_state = false ∧
  Z.land 83 255 = ord_S ∧
  ∃ v : Spec.verdict,
    Spec.verdict_of 22 18 = Some v ∧
    handle_key initial_state 22 18 83 =
      ({| game_over := true; winner_message := message_of v |}, false).
Proof.
  split; [reflexivity|]. split; [reflexivity|].
  apply (proj1 end_verdict_precedence initial_state 22 18 83); reflexivity.
Defined.

(** ** One frame *)

Lemma hand_values_ended (st : GameState) (hands : list string * list string) :
  game_over st = true → hand_values st hands = Ok (0, 0).
Proof. intros H. unfold hand_values. destruct hands. by rewrite H. Qed.

Lemma hand_values_live (st : GameState) (hands : list string * list string)
    (dealer_value player_value : Z) :
  game_over st = false →
  hand_values st hands = Ok (dealer_value, player_value) →
  (hands.1 = [] → dealer_value = 0) ∧
  (hands.1 ≠ [] → calculate_blackjack_value hands.1 = Ok dealer_value) ∧
  (hands.2 = [] → player_value = 0) ∧
  (hands.2 ≠ [] → calculate_blackjack_value hands.2 = Ok player_value).
Proof.
  intros Hlive. unfold hand_values. destruct hands as [dealer_hand player_hand].
  rewrite Hlive. cbn [negb fst snd].
  destruct dealer_hand as [|d dealer_hand], player_hand as [|p player_hand];
    cbn [bind];
    repeat match goal with
      | |- context [calculate_blackjack_value ?h] =>
          destruct (calculate_blackjack_value h); cbn [bind]
      end;
    intros [= <- <-] || intros [=]; done.
Qed.


Lemma frame_step_end (st : GameState) (f : Frame)
    (hands : list string * list string) (dealer_value player_value : Z) :
  Z.land (frame_key f) 255 = ord_S →
  aggregate f = Ok hands →
  hand_values st hands = Ok (dealer_value, player_value) →
  frame_step st f =
  Ok ({| game_over := true;
         winner_message := decide_winner dealer_value player_value |}, false).
Proof.
  intros Hkey Hagg Hvalues. unfold frame_step.
  rewrite Hagg. cbn [bind]. rewrite Hvalues. cbn [bind fst snd].
  by rewrite handle_key_end.
Qed.



(** C10.  When the End key arrives while the game is already over, no hand is
    evaluated in that frame: both values are the defaults 0, and the stored
    message becomes the draw message whatever cards are detected. *)
Theorem end_while_ended_is_draw :
  ∀ (st : GameState) (f : Frame) (hands : list string * list string),
    game_over st = true →
    Z.land (frame_key f) 255 = ord_S →
    aggregate f = Ok hands →
    hand_values st hands = Ok (0, 0) ∧
    frame_step st f =
      Ok ({| game_over := true; winner_message := "It's a draw!" |}, false).
Proof.
  intros st f hands Hover Hkey Hagg.
  pose proof (hand_values_ended st hands Hover) as Hvalues.
  split; [done|]. by rewrite (frame_step_end _ _ _ _ _ Hkey Hagg Hvalues).
Qed.

Lemma end_while_ended_is_draw_witness :
  Z.land (frame_key (table_frame 83)) 255 = ord_S ∧
  aggregate (table_frame 83) = Ok (["AH"], ["QS"]) ∧
  hand_values {| game_over := true; winner_message := "Dealer wins!" |}
              (["AH"], ["QS"]) = Ok (0, 0) ∧
  frame_step {| game_over := true; winner_message := "Dealer wins!" |}
             (table_frame 83) =
    Ok ({| game_over := true; winner_message := "It's a draw!" |}, false).
Proof.
  split; [reflexivity|]. split; [reflexivity|].
  apply (end_while_ended_is_draw
           {| game_over := true; winner_message := "Dealer wins!" |}
           (table_frame 83) (["AH"], ["QS"])); reflexivity.
Defined.

(** C8.  From any state in which the game is over, whatever message it holds,
    the Reset key leads to the state with [game_over = False] and the empty
    message; the loop goes on and the state has no other component. *)
Theorem reset_returns_to_in_progress :
  (∀ (st : GameState) (dealer_value player_value raw_key : Z),
     game_over st = true →
     Z.land raw_key 255 = ord_D →
     handle_key st dealer_value player_value raw_key =
       ({| game_over := false; winner_message := "" |}, false))
  ∧ (∀ (st : GameState) (f : Frame) (hands : list string * list string),
       game_over st = true →
       Z.land (frame_key f) 255 = ord_D →
       aggregate f = Ok hands →
       frame_step st f =
         Ok ({| game_over := false; winner_message := "" |}, false)).
Proof.
  split.
  - intros st dealer_value player_value raw_key _ Hkey. by apply handle_key_reset.
  - intros st f hands Hover Hkey Hagg. unfold frame_step.
    rewrite Hagg. cbn [bind]. rewrite hand_values_ended by done.
    cbn [bind fst snd]. by rewrite handle_key_reset.
Qed.

Lemma reset_returns_to_in_progress_witness :
  Z.land (frame_key (table_frame 68)) 255 = ord_D ∧
  aggregate (table_frame 68) = Ok (["AH"], ["QS"]) ∧
  frame_step {| game_over := true; winner_message := "Dealer wins!" |}
             (table_frame 68) =
    Ok ({| game_over := false; winner_message := "" |}, false).
Proof.
  split; [reflexivity|]. split; [reflexivity|].
  apply (proj2 reset_returns_to_in_progress
           {| game_over := true; winner_message := "Dealer wins!" |}
           (table_frame 68) (["AH"], ["QS"])); reflexivity.
Defined.

(** The scenario of the specification on the whole loop: End on a frame, then
    Reset on the next. *)
Example end_then_reset :
  main_loop initial_state [table_frame 83] =
    Ok {| game_over := true; winner_message := "Dealer wins!" |}
  ∧ main_loop initial_state [table_frame 83; table_frame 68] = Ok initial_state
  ∧ main_loop initial_state [table_frame 83; table_frame 113; table_frame 68] =
      Ok {| game_over := true; winner_message := "Dealer wins!" |}.
Proof. repeat split; reflexivity. Qed.

(** * Further properties of the code *)

(** ** The value of a hand *)

Lemma base_total_hard (hand : list Spec.card) :
  Spec.base_total hand = hard_total hand + 10 * Spec.ace_count hand.
Proof.
  unfold Spec.ace_count. induction hand as [|c hand IH]; [done|].
  cbn [Spec.base_total hard_total foldr].
  fold (Spec.base_total hand). fold (hard_total hand).
  rewrite filter_cons, IH. destruct c as [r s].
  case_decide as Hace; destruct r; try done; cbn; lia.
Qed.

Lemma hard_total_lower (hand : list Spec.card) :
  Z.of_nat (length hand) ≤ hard_total hand ∧
  0 ≤ Spec.ace_count hand ≤ hard_total hand.
Proof.
  unfold Spec.ace_count. induction hand as [|c hand IH]; [done|].
  cbn [hard_total foldr]. fold (hard_total hand).
  rewrite filter_cons, length_cons. destruct c as [r s].
  case_decide as Hace; destruct r; try done; cbn [length]; cbn; lia.
Qed.

Lemma ace_loop_value (total k : Z) :
  0 ≤ k →
  ∃ d : Z,
    0 ≤ d ≤ k ∧ (ace_loop (total, k)).1 = total - 10 * d ∧
    (total - 10 * d ≤ 21 ∨ d = k) ∧
    (d = 0 ∨ 21 < total - 10 * (d - 1)).
Proof.
  intros Hk.
  destruct (ace_loop_iter (total, k)) as (n & Hn & Heq & Hstop & Hrun).
  cbn [snd] in Hn. rewrite Heq. rewrite iter_ace_body in Hstop |- *.
  exists (Z.of_nat n). repeat split; try lia; cbn [fst].
  - unfold ace_cond in Hstop. cbn [fst snd] in Hstop.
    apply andb_false_iff in Hstop as [Hstop|Hstop]; lia.
  - destruct n as [|n]; [by left|right].
    specialize (Hrun n (Nat.lt_succ_diag_r n)).
    rewrite iter_ace_body in Hrun. unfold ace_cond in Hrun.
    cbn [fst snd] in Hrun. apply andb_prop in Hrun as [Hrun _]. lia.
Qed.

Lemma calculate_blackjack_value_hard (hand : list Spec.card) :
  calculate_blackjack_value (Spec.identifier <$> hand) =
  Ok (if (0 <? Spec.ace_count hand) && (hard_total hand + 10 <=? 21)
      then hard_total hand + 10 else hard_total hand).
Proof.
  rewrite calculate_blackjack_value_identifiers. f_equal.
  pose proof (hard_total_lower hand) as (_ & Hk0 & Hk).
  destruct (ace_loop_value (Spec.base_total hand) (Spec.ace_count hand) Hk0)
    as (d & Hd & -> & Hend & Hlast).
  rewrite base_total_hard.
  destruct (Z.ltb_spec 0 (Spec.ace_count hand)),
           (Z.leb_spec (hard_total hand + 10) 21); cbn [andb];
    rewrite base_total_hard in Hend, Hlast; lia.
Qed.

Lemma hard_total_submseteq (hand1 hand2 : list Spec.card) :
  hand1 ⊆+ hand2 → hard_total hand1 ≤ hard_total hand2.
Proof.
  induction 1 as [|c l1 l2 _ IH|c1 c2 l|c l1 l2 _ IH|l1 l2 l3 _ IH1 _ IH2];
    cbn [hard_total foldr]; fold hard_total;
    repeat match goal with
      | |- context [foldr _ 0 ?l] => change (foldr _ 0 l) with (hard_total l)
      end; try lia.
  pose proof (hard_total_lower [c]) as (H & _). cbn in H. lia.
Qed.

Lemma hard_total_NoDup (hand : list Spec.card) :
  NoDup hand → hard_total hand ≤ 340.
Proof.
  intros Hnodup. change 340 with (hard_total Spec.deck).
  apply hard_total_submseteq, NoDup_submseteq; [done|].
  intros c _. apply card_in_deck.
Qed.

(** X1.  The value of a hand of cards is its hard total (every Ace at 1),
    plus 10 when the hand holds an Ace and the raised total does not exceed
    21: at most one Ace ends up counted as 11. *)
Theorem blackjack_value_closed_form :
  ∀ hand : list Spec.card,
    calculate_blackjack_value (Spec.identifier <$> hand) =
    Ok (if (0 <? Spec.ace_count hand) && (hard_total hand + 10 <=? 21)
        then hard_total hand + 10 else hard_total hand).
Proof.
  intros hand. rewrite calculate_blackjack_value_identifiers. f_equal.
  pose proof (hard_total_lower hand) as (_ & Hk0 & Hk).
  destruct (ace_loop_value (Spec.base_total hand) (Spec.ace_count hand) Hk0)
    as (d & Hd & -> & Hend & Hlast).
  rewrite base_total_hard in Hend, Hlast |- *.
  destruct (Z.ltb_spec 0 (Spec.ace_count hand)),
           (Z.leb_spec (hard_total hand + 10) 21); cbn [andb]; lia.
Qed.

(** X2.  The value is the total of one way of counting [j0] Aces as 11 and the
    others as 1; no such way that stays within 21 gives more, and when the
    value is above 21 no way at all gives less. *)
Theorem blackjack_value_optimal :
  ∀ (hand : list Spec.card) (j : Z),
    0 ≤ j ≤ Spec.ace_count hand →
    ∃ value : Z,
      calculate_blackjack_value (Spec.identifier <$> hand) = Ok value ∧
      (∃ j0 : Z, 0 ≤ j0 ≤ Spec.ace_count hand ∧ value = hard_total hand + 10 * j0) ∧
      (hard_total hand + 10 * j ≤ 21 → hard_total hand + 10 * j ≤ value) ∧
      (21 < value → value ≤ hard_total hand + 10 * j).
Proof.
  intros hand j Hj. rewrite calculate_blackjack_value_hard.
  eexists. split; [reflexivity|].
  pose proof (hard_total_lower hand) as (_ & Hk0 & Hk).
  destruct (Z.ltb_spec 0 (Spec.ace_count hand)),
           (Z.leb_spec (hard_total hand + 10) 21); cbn [andb].
  all: split; [|lia].
  all: first [ by exists 1; lia | by exists 0; lia ].
Qed.

Lemma blackjack_value_optimal_witness :
  0 ≤ 2 ≤ 2 ∧
  ∃ value : Z,
    calculate_blackjack_value ["AH"; "AD"; "9C"] = Ok value ∧
    (∃ j0 : Z, 0 ≤ j0 ≤ 2 ∧ value = 11 + 10 * j0) ∧
    (11 + 10 * 2 ≤ 21 → 11 + 10 * 2 ≤ value) ∧
    (21 < value → value ≤ 11 + 10 * 2).
Proof.
  assert (0 ≤ 2 ≤ 2) as H by lia.
  split; [exact H|].
  exact (blackjack_value_optimal
           [ {| Spec.card_rank := Spec.Ace; Spec.card_suit := Spec.Hearts |};
             {| Spec.card_rank := Spec.Ace; Spec.card_suit := Spec.Diamonds |};
             {| Spec.card_rank := Spec.R9; Spec.card_suit := Spec.Clubs |} ]
           2 H).
Defined.

(** X3.  A hand of cards is worth more than 21 exactly when it exceeds 21
    with every Ace counted as 1. *)
Theorem bust_iff_hard_total :
  ∀ hand : list Spec.card,
    ∃ value : Z,
      calculate_blackjack_value (Spec.identifier <$> hand) = Ok value ∧
      (Spec.is_bust value = true ↔ 21 < hard_total hand).
Proof.
  intros hand. rewrite calculate_blackjack_value_hard.
  eexists. split; [reflexivity|]. unfold Spec.is_bust. rewrite Z.ltb_lt.
  destruct (Z.ltb_spec 0 (Spec.ace_count hand)),
           (Z.leb_spec (hard_total hand + 10) 21); cbn [andb]; lia.
Qed.

Lemma bust_iff_hard_total_witness :
  ∃ value : Z,
    calculate_blackjack_value ["KS"; "7H"; "AC"; "5D"] = Ok value ∧
    (Spec.is_bust value = true ↔ 21 < 23).
Proof.
  exact (bust_iff_hard_total
           [ {| Spec.card_rank := Spec.King; Spec.card_suit := Spec.Spades |};
             {| Spec.card_rank := Spec.R7; Spec.card_suit := Spec.Hearts |};
             {| Spec.card_rank := Spec.Ace; Spec.card_suit := Spec.Clubs |};
             {| Spec.card_rank := Spec.R5; Spec.card_suit := Spec.Diamonds |} ]).
Defined.

(** X4.  Every card counts at least 1: the value of a hand of cards is at
    least the number of its cards, so it is 0 only for the empty hand; and a
    hand without repeated cards is worth at most 340, the hard total of the
    whole deck. *)
Theorem blackjack_value_bounds :
  ∀ hand : list Spec.card,
    ∃ value : Z,
      calculate_blackjack_value (Spec.identifier <$> hand) = Ok value ∧
      Z.of_nat (length hand) ≤ value ∧
      (value = 0 ↔ hand = []) ∧
      (NoDup hand → value ≤ 340).
Proof.
  intros hand. rewrite calculate_blackjack_value_hard.
  eexists. split; [reflexivity|].
  pose proof (hard_total_lower hand) as (Hlen & Hk0 & Hk).
  assert (Z.of_nat (length hand) ≤
          (if (0 <? Spec.ace_count hand) && (hard_total hand + 10 <=? 21)
           then hard_total hand + 10 else hard_total hand)) as Hlow.
  { destruct ((0 <? Spec.ace_count hand) && (hard_total hand + 10 <=? 21)); lia. }
  split; [exact Hlow|]. split; [split|].
  - intros H0. destruct hand; [done|]. rewrite H0 in Hlow. cbn in Hlow. lia.
  - by intros ->.
  - intros Hnodup. apply hard_total_NoDup in Hnodup.
    destruct (Z.ltb_spec 0 (Spec.ace_count hand)),
             (Z.leb_spec (hard_total hand + 10) 21); cbn [andb]; lia.
Qed.

Lemma blackjack_value_bounds_witness :
  ∃ value : Z,
    calculate_blackjack_value (Spec.identifier <$> Spec.deck) = Ok value ∧
    Z.of_nat (length Spec.deck) ≤ value ∧
    (value = 0 ↔ Spec.deck = []) ∧
    (NoDup Spec.deck → value ≤ 340).
Proof. exact (blackjack_value_bounds Spec.deck). Defined.

(** X5.  The value of a hand, or the exception it raises, does not depend on
    the order of its cards; in particular any order in which [list(set(...))]
    may return the distinct cards gives the value computed here. *)
Theorem hand_order_irrelevant :
  (∀ hand1 hand2 : list string,
     hand1 ≡ₚ hand2 →
     calculate_blackjack_value hand1 = calculate_blackjack_value hand2)
  ∧ (∀ hand distinct : list string,
       NoDup distinct →
       (∀ name, name ∈ distinct ↔ name ∈ hand) →
       calculate_blackjack_value distinct =
       calculate_blackjack_value (list_set hand)).
Proof.
  split.
  - intros hand1 hand2 H. unfold calculate_blackjack_value.
    by rewrite (for_each_card_step_Permutation _ _ H).
  - intros hand distinct Hnodup Hsame. unfold calculate_blackjack_value.
    rewrite (for_each_card_step_Permutation distinct (list_set hand)); [done|].
    apply NoDup_Permutation; [done|unfold list_set; apply NoDup_elements|].
    intros name. unfold list_set.
    by rewrite Hsame, elem_of_elements, elem_of_list_to_set.
Qed.

Lemma hand_order_irrelevant_witness :
  ["AH"; "9C"; "AD"] ≡ₚ ["9C"; "AD"; "AH"] ∧
  calculate_blackjack_value ["AH"; "9C"; "AD"] =
  calculate_blackjack_value ["9C"; "AD"; "AH"].
Proof.
  assert (["AH"; "9C"; "AD"] ≡ₚ ["9C"; "AD"; "AH"]) as H.
  { etransitivity; [apply Permutation_swap|]. apply perm_skip, Permutation_swap. }
  split; [exact H|]. exact (proj1 hand_order_irrelevant _ _ H).
Defined.

(** ** Class indices and the exceptions of a frame *)

Lemma getitem_classNames_ok (box : Box) :
  index_ok box →
  ∃ name, getitem classNames (box_cls box) = Ok name ∧ name ∈ classNames.
Proof.
  unfold index_ok, getitem. intros Hcls.
  change (Z.of_nat (length classNames)) with 52.
  set (j := if box_cls box <? 0 then box_cls box + 52 else box_cls box).
  assert (0 ≤ j < 52) as Hj by (subst j; destruct (Z.ltb_spec (box_cls box) 0); lia).
  rewrite (proj2 (andb_true_iff _ _)) by (split; [apply Z.leb_le|apply Z.ltb_lt]; lia).
  destruct (lookup_lt_is_Some_2 classNames (Z.to_nat j)) as [name Hname].
  { rewrite classNames_length. lia. }
  rewrite Hname. exists name. split; [done|]. by eapply list_elem_of_lookup_2.
Qed.

Lemma getitem_classNames_bad (box : Box) :
  ¬ index_ok box → getitem classNames (box_cls box) = Raise IndexError.
Proof.
  unfold index_ok, getitem. intros Hcls.
  change (Z.of_nat (length classNames)) with 52.
  set (j := if box_cls box <? 0 then box_cls box + 52 else box_cls box).
  assert (¬ 0 ≤ j < 52) as Hj by (subst j; destruct (Z.ltb_spec (box_cls box) 0); lia).
  destruct (Z.leb_spec 0 j), (Z.ltb_spec j 52); cbn [andb]; try done; lia.
Qed.

Lemma for_each_box_step_raise (height width : Z) (boxes : list Box)
    (hands : list string * list string) (e : exn) :
  for_each (box_step height width) boxes hands = Raise e ↔
  e = IndexError ∧ Exists (λ box, ¬ index_ok box) boxes.
Proof.
  revert hands. induction boxes as [|box boxes IH]; intros [dealer_hand player_hand].
  - cbn. split; [done|]. intros [_ H]. by apply Exists_nil in H.
  - cbn [for_each]. unfold box_step at 1. rewrite Exists_cons.
    destruct (decide (index_ok box)) as [Hok|Hbad].
    + destruct (getitem_classNames_ok box Hok) as (name & -> & _). cbn [bind].
      rewrite classify_cases.
      destruct (box_y1 box <? height `div` 2); cbn [bind]; rewrite IH; tauto.
    + rewrite (getitem_classNames_bad box Hbad). cbn [bind].
      split; [intros [= <-]; tauto|]. by intros [-> _].
Qed.

Lemma collect_hands_raise (f : Frame) (e : exn) :
  collect_hands f = Raise e ↔
  e = IndexError ∧ Exists (λ box, ¬ index_ok box) (frame_boxes f).
Proof.
  unfold collect_hands, frame_boxes.
  generalize (@nil string, @nil string).
  induction (frame_results f) as [|boxes results IH]; intros hands.
  - cbn. split; [done|]. intros [_ H]. by apply Exists_nil in H.
  - cbn [for_each concat]. rewrite Exists_app.
    destruct (for_each (box_step _ _) boxes hands) as [hands1|e1] eqn:Hboxes;
      cbn [bind].
    + rewrite IH. split; [tauto|]. intros [-> [Hbad|Hbad]]; [|done].
      assert (for_each (box_step (frame_height f) (frame_width f)) boxes hands
              = Raise IndexError) as Hraise
        by (by apply for_each_box_step_raise).
      congruence.
    + apply for_each_box_step_raise in Hboxes as [-> Hbad].
      split; [intros [= <-]; tauto|]. by intros [-> _].
Qed.

Lemma aggregate_raise (f : Frame) (e : exn) :
  aggregate f = Raise e ↔
  e = IndexError ∧ Exists (λ box, ¬ index_ok box) (frame_boxes f).
Proof.
  rewrite <- collect_hands_raise. unfold aggregate.
  destruct (collect_hands f); cbn [bind]; split; congruence.
Qed.

Lemma zone_names_valid (z : Zone) (height width : Z) (boxes : list Box) :
  Forall (λ name, name ∈ classNames) (zone_names z height width boxes).
Proof.
  apply Forall_forall. intros name Hin.
  apply elem_of_zone_names in Hin as (box & _ & _ & Hname).
  destruct (decide (index_ok box)) as [Hok|Hbad].
  - destruct (getitem_classNames_ok box Hok) as (name' & Hname' & Hin). congruence.
  - rewrite (getitem_classNames_bad box Hbad) in Hname. done.
Qed.

Lemma list_set_valid (hand : list string) :
  Forall (λ name, name ∈ classNames) hand →
  Forall (λ name, name ∈ classNames) (list_set hand).
Proof.
  rewrite !Forall_forall. intros H name Hin. apply H.
  unfold list_set in Hin. by rewrite elem_of_elements, elem_of_list_to_set in Hin.
Qed.

Lemma aggregate_hands (f : Frame) (hands : list string * list string) (z : Zone) :
  aggregate f = Ok hands →
  hand_of z hands =
  list_set (zone_names z (frame_height f) (frame_width f) (frame_boxes f)).
Proof.
  intros Hagg. unfold aggregate in Hagg.
  destruct (collect_hands f) as [raw|e] eqn:Hraw; [|done].
  apply collect_hands_names in Hraw as ->. cbn in Hagg. injection Hagg as <-.
  by destruct z.
Qed.

Lemma valid_hand_value (hand : list string) :
  Forall (λ name, name ∈ classNames) hand →
  NoDup hand →
  ∃ value, calculate_blackjack_value hand = Ok value ∧
           Z.of_nat (length hand) ≤ value ≤ 340.
Proof.
  intros Hvalid Hnodup. apply valid_hand_cards in Hvalid as [cards ->].
  rewrite calculate_blackjack_value_hard. eexists. split; [reflexivity|].
  rewrite length_fmap. apply NoDup_fmap_1, hard_total_NoDup in Hnodup.
  pose proof (hard_total_lower cards) as (Hlen & Hk0 & Hk).
  destruct (Z.ltb_spec 0 (Spec.ace_count cards)),
           (Z.leb_spec (hard_total cards + 10) 21); cbn [andb]; lia.
Qed.

Lemma hand_values_ok (st : GameState) (f : Frame)
    (hands : list string * list string) :
  aggregate f = Ok hands →
  ∃ dealer_value player_value,
    hand_values st hands = Ok (dealer_value, player_value) ∧
    0 ≤ dealer_value ≤ 340 ∧ 0 ≤ player_value ≤ 340 ∧
    (game_over st = false → dealer_value = 0 → hands.1 = []) ∧
    (game_over st = false → player_value = 0 → hands.2 = []).
Proof.
  intros Hagg.
  pose proof (aggregate_hands f hands Dealer Hagg) as Hd.
  pose proof (aggregate_hands f hands Player Hagg) as Hp.
  cbn [hand_of] in Hd, Hp.
  destruct (valid_hand_value hands.1) as (dv & Hdv & Hdv_bounds).
  { rewrite Hd. apply list_set_valid, zone_names_valid. }
  { rewrite Hd. unfold list_set. apply NoDup_elements. }
  destruct (valid_hand_value hands.2) as (pv & Hpv & Hpv_bounds).
  { rewrite Hp. apply list_set_valid, zone_names_valid. }
  { rewrite Hp. unfold list_set. apply NoDup_elements. }
  unfold hand_values. destruct hands as [dealer_hand player_hand].
  cbn [fst snd] in *.
  destruct (game_over st); cbn [negb].
  { exists 0, 0. repeat split; done || lia. }
  destruct dealer_hand as [|d dealer_hand], player_hand as [|p player_hand];
    rewrite ?Hdv, ?Hpv; cbn [bind]; eexists _, _;
    (split; [reflexivity|]); cbn [length] in *;
    repeat split; try done; try lia.
Qed.

Lemma getitem_negative (cls : Z) :
  -52 ≤ cls < 0 →
  ∃ name, getitem classNames cls = Ok name ∧
          getitem classNames (cls + 52) = Ok name ∧ name ∈ classNames.
Proof.
  intros Hcls.
  destruct (getitem_classNames_ok {| box_y1 := 0; box_cls := cls |})
    as (name & Hname & Hin); [unfold index_ok; cbn; lia|].
  cbn [box_cls] in Hname. exists name. split; [done|]. split; [|done].
  rewrite <- Hname. unfold getitem.
  change (Z.of_nat (length classNames)) with 52.
  rewrite (proj2 (Z.ltb_lt cls 0)) by lia.
  by rewrite (proj2 (Z.ltb_ge (cls + 52) 0)) by lia.
Qed.

(** X6.  In a frame that has been read and whose boxes have been converted to
    integers, a class index outside [-52, 52) makes the iteration raise
    [IndexError] at [classNames[cls]], in every state of the game and for
    every key, also while the game is over and no hand is evaluated.  An
    index from -52 to -1 does not raise: it names the entry of the table
    counted from its end. *)
Theorem bad_index_raises_IndexError :
  (∀ (st : GameState) (f : Frame),
     (∃ box, box ∈ frame_boxes f ∧ ¬ index_ok box) →
     aggregate f = Raise IndexError ∧ frame_step st f = Raise IndexError)
  ∧ (∀ cls : Z,
       -52 ≤ cls < 0 →
       ∃ name, getitem classNames cls = Ok name ∧
               getitem classNames (cls + 52) = Ok name ∧ name ∈ classNames).
Proof.
  split; [|exact getitem_negative].
  intros st f Hbad. apply Exists_exists in Hbad.
  assert (aggregate f = Raise IndexError) as Hagg
    by (by apply aggregate_raise).
  split; [done|]. unfold frame_step. by rewrite Hagg.
Qed.

Lemma bad_index_raises_IndexError_witness :
  aggregate
    {| frame_height := 720; frame_width := 1280;
       frame_results := [[ {| box_y1 := 10; box_cls := 52 |} ]];
       frame_key := 83 |} = Raise IndexError ∧
  frame_step {| game_over := true; winner_message := "Dealer wins!" |}
    {| frame_height := 720; frame_width := 1280;
       frame_results := [[ {| box_y1 := 10; box_cls := 52 |} ]];
       frame_key := 83 |} = Raise IndexError.
Proof.
  apply (proj1 bad_index_raises_IndexError).
  exists {| box_y1 := 10; box_cls := 52 |}. split; [left|].
  unfold index_ok. cbn. lia.
Defined.

Lemma zone_names_lengths (height width : Z) (boxes : list Box) :
  Forall index_ok boxes →
  (length (zone_names Dealer height width boxes) +
   length (zone_names Player height width boxes) = length boxes)%nat.
Proof.
  induction 1 as [|box boxes Hok _ IH]; [done|].
  unfold zone_names in *. cbn [omap list_omap].
  destruct (getitem_classNames_ok box Hok) as (name & -> & _).
  rewrite classify_cases.
  destruct (box_y1 box <? height `div` 2).
  - rewrite decide_True by done. rewrite decide_False by done.
    cbn [length]. lia.
  - rewrite decide_False by done. rewrite decide_True by done.
    cbn [length]. lia.
Qed.

(** X7.  When the two collecting loops finish, every box of the frame has put
    its card name in exactly one of the two lists: no detection is dropped and
    none is counted for both sides. *)
Theorem collect_hands_keeps_every_box :
  ∀ (f : Frame) (dealer_hand player_hand : list string),
    collect_hands f = Ok (dealer_hand, player_hand) →
    (length dealer_hand + length player_hand = length (frame_boxes f))%nat.
Proof.
  intros f dealer_hand player_hand Hcollect.
  assert (Forall index_ok (frame_boxes f)) as Hok.
  { apply Forall_forall. intros box Hin.
    destruct (decide (index_ok box)) as [|Hbad]; [done|].
    assert (collect_hands f = Raise IndexError) as Hraise.
    { apply collect_hands_raise. split; [done|]. apply Exists_exists. eauto. }
    congruence. }
  apply collect_hands_names in Hcollect. injection Hcollect as -> ->.
  by apply zone_names_lengths.
Qed.

Lemma collect_hands_keeps_every_box_witness :
  collect_hands (table_frame 255) = Ok (["AH"; "AH"], ["QS"]) ∧
  (length ["AH"; "AH"] + length ["QS"] = length (frame_boxes (table_frame 255)))%nat.
Proof.
  assert (collect_hands (table_frame 255) = Ok (["AH"; "AH"], ["QS"])) as H
    by reflexivity.
  split; [exact H|]. exact (collect_hands_keeps_every_box _ _ _ H).
Defined.

(** X8.  After deduplication a hand has no repeated name, holds exactly the
    names detected at least once in its zone, all of them names of the card
    table, and so has at most 52 members. *)
Theorem aggregate_hand_contents :
  ∀ (f : Frame) (hands : list string * list string) (z : Zone),
    aggregate f = Ok hands →
    NoDup (hand_of z hands) ∧
    (∀ name, name ∈ hand_of z hands ↔ (1 ≤ length (detections f z name))%nat) ∧
    Forall (λ name, name ∈ classNames) (hand_of z hands) ∧
    (length (hand_of z hands) ≤ 52)%nat.
Proof.
  intros f hands z Hagg. rewrite (aggregate_hands f hands z Hagg).
  assert (Forall (λ name, name ∈ classNames)
            (list_set (zone_names z (frame_height f) (frame_width f) (frame_boxes f))))
    as Hvalid by apply list_set_valid, zone_names_valid.
  assert (NoDup (list_set (zone_names z (frame_height f) (frame_width f)
                             (frame_boxes f)))) as Hnodup
    by (unfold list_set; apply NoDup_elements).
  repeat split; try done.
  - intros Hin. apply detections_zone_names.
    unfold list_set in Hin. by rewrite elem_of_elements, elem_of_list_to_set in Hin.
  - intros Hin. apply detections_zone_names in Hin.
    unfold list_set. by rewrite elem_of_elements, elem_of_list_to_set.
  - rewrite <- classNames_length. apply submseteq_length, NoDup_submseteq; [done|].
    by apply Forall_forall.
Qed.

Lemma aggregate_hand_contents_witness :
  aggregate (table_frame 255) = Ok (["AH"], ["QS"]) ∧
  NoDup ["AH"] ∧
  (∀ name, name ∈ ["AH"] ↔
           (1 ≤ length (detections (table_frame 255) Dealer name))%nat) ∧
  Forall (λ name, name ∈ classNames) ["AH"] ∧
  (length ["AH"] ≤ 52)%nat.
Proof.
  assert (aggregate (table_frame 255) = Ok (["AH"], ["QS"])) as H by reflexivity.
  split; [exact H|]. exact (aggregate_hand_contents _ _ Dealer H).
Defined.

(** X9.  Inside the loop the evaluation of the two hands never raises, both
    values lie between 0 and 340, and while the game is in progress a value is
    0 exactly when its zone holds no card. *)
Theorem loop_hand_values :
  ∀ (st : GameState) (f : Frame) (hands : list string * list string),
    aggregate f = Ok hands →
    ∃ dealer_value player_value : Z,
      hand_values st hands = Ok (dealer_value, player_value) ∧
      0 ≤ dealer_value ≤ 340 ∧ 0 ≤ player_value ≤ 340 ∧
      (game_over st = false →
       (dealer_value = 0 ↔ hands.1 = []) ∧ (player_value = 0 ↔ hands.2 = [])).
Proof.
  intros st f hands Hagg.
  destruct (hand_values_ok st f hands Hagg)
    as (dv & pv & Hvalues & Hdv & Hpv & Hd0 & Hp0).
  exists dv, pv. repeat split; try done; try lia.
  - by apply Hd0.
  - intros Hempty. by apply (hand_values_live _ _ _ _ H Hvalues).
  - by apply Hp0.
  - intros Hempty. by apply (hand_values_live _ _ _ _ H Hvalues).
Qed.

Lemma loop_hand_values_witness :
  aggregate (player_only_frame 255) = Ok ([], ["KC"; "5C"; "QC"]) ∧
  ∃ dealer_value player_value : Z,
    hand_values initial_state ([], ["KC"; "5C"; "QC"])
      = Ok (dealer_value, player_value) ∧
    0 ≤ dealer_value ≤ 340 ∧ 0 ≤ player_value ≤ 340 ∧
    (game_over initial_state = false →
     (dealer_value = 0 ↔ @nil string = []) ∧
     (player_value = 0 ↔ ["KC"; "5C"; "QC"] = [])).
Proof.
  assert (aggregate (player_only_frame 255) = Ok ([], ["KC"; "5C"; "QC"])) as H
    by reflexivity.
  split; [exact H|]. exact (loop_hand_values initial_state _ _ H).
Defined.

(** ** Keys and the state of the game *)

Lemma frame_step_returns (st : GameState) (f : Frame) :
  Forall index_ok (frame_boxes f) →
  ∃ dealer_value player_value : Z,
    frame_step st f =
    Ok (handle_key st dealer_value player_value (frame_key f)).
Proof.
  intros Hok.
  destruct (aggregate f) as [hands|e] eqn:Hagg.
  - destruct (hand_values_ok st f hands Hagg) as (dv & pv & Hvalues & _).
    exists dv, pv. unfold frame_step. rewrite Hagg. cbn [bind].
    by rewrite Hvalues.
  - apply aggregate_raise in Hagg as [_ Hbad].
    apply Exists_exists in Hbad as (box & Hin & Hbad).
    by apply (proj1 (Forall_forall _ _) Hok) in Hin.
Qed.

Lemma frame_step_handle_key (st st' : GameState) (f : Frame) (stop : bool) :
  frame_step st f = Ok (st', stop) →
  ∃ dealer_value player_value : Z,
    handle_key st dealer_value player_value (frame_key f) = (st', stop).
Proof.
  unfold frame_step. destruct (aggregate f) as [hands|e]; [|done]. cbn [bind].
  destruct (hand_values st hands) as [[dv pv]|e]; [|done]. cbn [bind fst snd].
  intros H. exists dv, pv. congruence.
Qed.

Lemma handle_key_state_ok (st : GameState) (dealer_value player_value raw_key : Z) :
  state_ok st → state_ok (handle_key st dealer_value player_value raw_key).1.
Proof.
  intros Hst. unfold handle_key. cbn [fst].
  destruct (Z.land raw_key 255 =? ord_D); [done|].
  destruct (Z.land raw_key 255 =? ord_S); [|done].
  unfold state_ok. cbn.
  destruct (decide_winner_verdict dealer_value player_value) as (v & _ & ->).
  by exists v.
Qed.

(** X10.  A key whose low byte is neither [S] nor [D] leaves both state
    variables as they were; the loop stops exactly when that byte is [q].
    This covers the frames without a key press (code -1) and the lower-case
    letters [s] and [d]. *)
Theorem other_keys_keep_state :
  (∀ (st : GameState) (dealer_value player_value raw_key : Z),
     Z.land raw_key 255 ≠ ord_S →
     Z.land raw_key 255 ≠ ord_D →
     handle_key st dealer_value player_value raw_key =
       (st, bool_decide (Z.land raw_key 255 = ord_q)))
  ∧ (∀ (st st' : GameState) (f : Frame) (stop : bool),
       Z.land (frame_key f) 255 ≠ ord_S →
       Z.land (frame_key f) 255 ≠ ord_D →
       frame_step st f = Ok (st', stop) →
       st' = st ∧ (stop = true ↔ Z.land (frame_key f) 255 = ord_q)).
Proof.
  assert (∀ st dv pv raw_key,
            Z.land raw_key 255 ≠ ord_S → Z.land raw_key 255 ≠ ord_D →
            handle_key st dv pv raw_key =
              (st, bool_decide (Z.land raw_key 255 = ord_q))) as Hkey.
  { intros st dv pv raw_key HS HD. unfold handle_key.
    rewrite (proj2 (Z.eqb_neq _ _) HS), (proj2 (Z.eqb_neq _ _) HD).
    f_equal. destruct (Z.eqb_spec (Z.land raw_key 255) ord_q).
    - by rewrite bool_decide_eq_true_2.
    - by rewrite bool_decide_eq_false_2. }
  split; [exact Hkey|].
  intros st st' f stop HS HD Hstep.
  apply frame_step_handle_key in Hstep as (dv & pv & Hstep).
  rewrite Hkey in Hstep by done. injection Hstep as <- <-.
  split; [done|]. by rewrite bool_decide_eq_true.
Qed.

Lemma other_keys_keep_state_witness :
  Z.land (-1) 255 ≠ ord_S ∧ Z.land (-1) 255 ≠ ord_D ∧
  handle_key {| game_over := true; winner_message := "Dealer wins!" |} 21 20 (-1)
  = ({| game_over := true; winner_message := "Dealer wins!" |},
     bool_decide (Z.land (-1) 255 = ord_q)).
Proof.
  assert (Z.land (-1) 255 ≠ ord_S) as HS
    by (intros H; vm_compute in H; discriminate H).
  assert (Z.land (-1) 255 ≠ ord_D) as HD
    by (intros H; vm_compute in H; discriminate H).
  split; [exact HS|]. split; [exact HD|].
  exact (proj1 other_keys_keep_state _ 21 20 (-1) HS HD).
Defined.

(** X11.  Only the low byte of the key code is looked at: two codes that
    differ by a multiple of 256 are handled alike. *)
Theorem key_low_byte_only :
  ∀ (st : GameState) (dealer_value player_value raw_key n : Z),
    handle_key st dealer_value player_value (raw_key + 256 * n) =
    handle_key st dealer_value player_value raw_key.
Proof.
  intros st dealer_value player_value raw_key n. unfold handle_key.
  replace (Z.land (raw_key + 256 * n) 255) with (Z.land raw_key 255); [done|].
  change 255 with (Z.ones 8). rewrite !Z.land_ones by lia.
  change (2 ^ 8) with 256. by rewrite Z.mul_comm, Z_mod_plus_full.
Qed.

(** X12.  Whatever the state, a frame with the Reset key and class indices in
    range leads to the initial state, also while the game is in progress,
    where the hands are evaluated first. *)
Theorem reset_from_any_state :
  ∀ (st : GameState) (f : Frame),
    Z.land (frame_key f) 255 = ord_D →
    Forall index_ok (frame_boxes f) →
    frame_step st f = Ok (initial_state, false).
Proof.
  intros st f Hkey Hok.
  destruct (frame_step_returns st f Hok) as (dv & pv & ->).
  by rewrite handle_key_reset.
Qed.

Lemma reset_from_any_state_witness :
  Z.land (frame_key (table_frame 68)) 255 = ord_D ∧
  Forall index_ok (frame_boxes (table_frame 68)) ∧
  frame_step initial_state (table_frame 68) = Ok (initial_state, false).
Proof.
  assert (Forall index_ok (frame_boxes (table_frame 68))) as Hok.
  { repeat constructor; unfold index_ok; cbn; lia. }
  split; [reflexivity|]. split; [exact Hok|].
  exact (reset_from_any_state initial_state (table_frame 68) eq_refl Hok).
Defined.

(** X13.  Started in the initial state, the loop only reaches states in which
    the message is empty while the game is in progress and is one of the six
    verdict messages once the game is over. *)
Theorem main_loop_state_ok :
  ∀ (frames : list Frame) (st : GameState),
    main_loop initial_state frames = Ok st → state_ok st.
Proof.
  assert (∀ frames st0 st,
            state_ok st0 → main_loop st0 frames = Ok st → state_ok st) as Hgen.
  { induction frames as [|f frames IH]; intros st0 st Hst0; cbn [main_loop].
    - by intros [= <-].
    - destruct (frame_step st0 f) as [[st1 stop]|e] eqn:Hstep; [|done].
      cbn [bind fst snd].
      apply frame_step_handle_key in Hstep as (dv & pv & Hkey).
      pose proof (handle_key_state_ok st0 dv pv (frame_key f) Hst0) as Hst1.
      rewrite Hkey in Hst1. cbn [fst] in Hst1.
      destruct stop; [by intros [= <-]|]. by apply IH. }
  intros frames st. by apply Hgen.
Qed.

Lemma main_loop_state_ok_witness :
  main_loop initial_state [table_frame 83; table_frame 255] =
    Ok {| game_over := true; winner_message := "Dealer wins!" |} ∧
  state_ok {| game_over := true; winner_message := "Dealer wins!" |}.
Proof.
  assert (main_loop initial_state [table_frame 83; table_frame 255] =
            Ok {| game_over := true; winner_message := "Dealer wins!" |}) as H
    by reflexivity.
  split; [exact H|]. exact (main_loop_state_ok _ _ H).
Defined.

(** X14.  Two consecutive frames with the End key always leave the draw
    message: the second End finds the game over and decides on 0 against 0,
    whatever the first frame decided and whatever cards lie on the table. *)
Theorem end_twice_is_draw :
  ∀ (st : GameState) (f1 f2 : Frame),
    Z.land (frame_key f1) 255 = ord_S →
    Z.land (frame_key f2) 255 = ord_S →
    Forall index_ok (frame_boxes f1) →
    Forall index_ok (frame_boxes f2) →
    main_loop st [f1; f2] =
      Ok {| game_over := true; winner_message := "It's a draw!" |}.
Proof.
  intros st f1 f2 Hkey1 Hkey2 Hok1 Hok2. cbn [main_loop].
  destruct (frame_step_returns st f1 Hok1) as (dv1 & pv1 & ->).
  rewrite handle_key_end by done. cbn [bind fst snd].
  destruct (aggregate f2) as [hands|e] eqn:Hagg.
  - rewrite (frame_step_end _ f2 hands 0 0 Hkey2 Hagg)
      by (by apply hand_values_ended).
    done.
  - apply aggregate_raise in Hagg as [_ Hbad].
    apply Exists_exists in Hbad as (box & Hin & Hbad).
    by apply (proj1 (Forall_forall _ _) Hok2) in Hin.
Qed.

Lemma end_twice_is_draw_witness :
  main_loop initial_state [table_frame 83; table_frame 83] =
    Ok {| game_over := true; winner_message := "It's a draw!" |}.
Proof.
  assert (Forall index_ok (frame_boxes (table_frame 83))) as Hok.
  { repeat constructor; unfold index_ok; cbn; lia. }
  exact (end_twice_is_draw initial_state (table_frame 83) (table_frame 83)
           eq_refl eq_refl Hok Hok).
Defined.

(** X15.  A frame with the [q] key ends the loop with the state unchanged;
    the frames after it are never looked at. *)
Theorem quit_stops_the_loop :
  ∀ (st : GameState) (f : Frame) (later : list Frame),
    Z.land (frame_key f) 255 = ord_q →
    Forall index_ok (frame_boxes f) →
    main_loop st (f :: later) = Ok st.
Proof.
  intros st f later Hkey Hok. cbn [main_loop].
  destruct (frame_step_returns st f Hok) as (dv & pv & ->).
  unfold handle_key. rewrite Hkey. done.
Qed.

Lemma quit_stops_the_loop_witness :
  main_loop {| game_over := true; winner_message := "Dealer wins!" |}
            [table_frame 113; table_frame 68] =
    Ok {| game_over := true; winner_message := "Dealer wins!" |}.
Proof.
  assert (Forall index_ok (frame_boxes (table_frame 113))) as Hok.
  { repeat constructor; unfold index_ok; cbn; lia. }
  exact (quit_stops_the_loop _ (table_frame 113) [table_frame 68] eq_refl Hok).
Defined.

(** ** The card table *)

(** X16.  The table [classNames] lists the identifiers of the 52 cards (13
    ranks, 4 suits), each once: it is a rearrangement of the deck's
    identifiers. *)
Theorem classNames_is_the_deck :
  classNames ≡ₚ Spec.identifier <$> Spec.deck.
Proof.
  apply NoDup_Permutation.
  - apply classNames_NoDup.
  - apply (bool_decide_unpack _). vm_compute. exact I.
  - intros name. rewrite classNames_spec, list_elem_of_fmap. split.
    + intros [c ->]. exists c. split; [done|apply card_in_deck].
    + intros (c & -> & _). by exists c.
Qed.

(** ** What a frame shows *)

Lemma zone_hand_label (who : string) (f : Frame)
    (hands : list string * list string) (z : Zone) (value : Z) :
  aggregate f = Ok hands →
  hand_of z hands ≠ [] →
  calculate_blackjack_value (hand_of z hands) = Ok value →
  1 ≤ value ∧
  (21 < value → hand_label who value = who +:+ ": BUST") ∧
  (value ≤ 21 → hand_label who value = who +:+ ": " +:+ pretty value).
Proof.
  intros Hagg Hne Hvalue.
  destruct (valid_hand_value (hand_of z hands)) as (v & Hv & Hlen & _).
  { rewrite (aggregate_hands f hands z Hagg).
    apply list_set_valid, zone_names_valid. }
  { rewrite (aggregate_hands f hands z Hagg). unfold list_set.
    apply NoDup_elements. }
  assert (v = value) as -> by congruence.
  split.
  { destruct (hand_of z hands); [done|]. cbn [length] in Hlen. lia. }
  unfold hand_label. split; intros Hcmp.
  - by rewrite (proj2 (Z.ltb_lt _ _) Hcmp).
  - by rewrite (proj2 (Z.ltb_ge _ _) Hcmp).
Qed.

(** X17.  The text boxes of a frame ([cvzone.putTextRect]): while the game
    is over there is one, the stored message at
    [(width // 2 - 200, height // 2 - 50)], and no hand value.  While it is
    in progress there is one label per zone that holds a card, the dealer's at
    [(50, 50)] before the player's at [(50, height // 2 + 50)], and none for
    an empty zone; the label of a zone is built from the value of that zone's
    hand, the same value an End in this frame would use: [BUST] when it is
    above 21 and otherwise the value in decimal, a number from 1 to 21. *)
Theorem frame_texts_shown :
  ∀ (st : GameState) (f : Frame) (hands : list string * list string)
    (texts : list Text),
    aggregate f = Ok hands →
    frame_texts st f = Ok texts →
    (game_over st = true →
     texts = [ {| text_content := winner_message st;
                  text_x := frame_width f `div` 2 - 200;
                  text_y := frame_height f `div` 2 - 50 |} ]) ∧
    (game_over st = false →
     ∃ dealer_value player_value : Z,
       hand_values st hands = Ok (dealer_value, player_value) ∧
       texts =
         ((if decide (hands.1 = []) then []
           else [ {| text_content := hand_label "Dealer" dealer_value;
                     text_x := 50; text_y := 50 |} ]) ++
          (if decide (hands.2 = []) then []
           else [ {| text_content := hand_label "Player" player_value;
                     text_x := 50;
                     text_y := frame_height f `div` 2 + 50 |} ]))%list ∧
       (hands.1 ≠ [] →
        calculate_blackjack_value hands.1 = Ok dealer_value ∧
        1 ≤ dealer_value ∧
        (21 < dealer_value → hand_label "Dealer" dealer_value = "Dealer: BUST") ∧
        (dealer_value ≤ 21 →
         hand_label "Dealer" dealer_value = "Dealer: " +:+ pretty dealer_value)) ∧
       (hands.2 ≠ [] →
        calculate_blackjack_value hands.2 = Ok player_value ∧
        1 ≤ player_value ∧
        (21 < player_value → hand_label "Player" player_value = "Player: BUST") ∧
        (player_value ≤ 21 →
         hand_label "Player" player_value = "Player: " +:+ pretty player_value))).
Proof.
  intros st f hands texts Hagg. unfold frame_texts. rewrite Hagg. cbn [bind].
  destruct (game_over st) eqn:Hover.
  { unfold frame_overlay. destruct hands. rewrite Hover. cbn [negb bind].
    cbn [app]. intros [= <-]. split; [done|]. intros H. discriminate H. }
  intros Htexts. split; [intros [=]|]. intros _.
  destruct (hand_values_ok st f hands Hagg) as (dv & pv & Hvalues & _).
  pose proof (hand_values_live st hands dv pv Hover Hvalues)
    as (_ & Hdealer & _ & Hplayer).
  exists dv, pv. split; [done|]. split; [|split].
  - unfold frame_overlay in Htexts.
    destruct hands as [dealer_hand player_hand]. cbn [fst snd] in *.
    rewrite Hover in Htexts. cbn [negb] in Htexts.
    destruct dealer_hand as [|d dealer_hand], player_hand as [|p player_hand].
    + cbn [bind] in Htexts. injection Htexts as <-.
      by rewrite !decide_True by done.
    + rewrite Hplayer in Htexts by done. cbn [bind] in Htexts.
      injection Htexts as <-.
      rewrite decide_True by done. by rewrite decide_False by done.
    + rewrite Hdealer in Htexts by done. cbn [bind] in Htexts.
      injection Htexts as <-.
      rewrite decide_False by done. by rewrite decide_True by done.
    + rewrite Hdealer, Hplayer in Htexts by done. cbn [bind] in Htexts.
      injection Htexts as <-.
      by rewrite !decide_False by done.
  - intros Hne. split; [by apply Hdealer|].
    apply (zone_hand_label "Dealer" f hands Dealer dv Hagg Hne).
    by apply Hdealer.
  - intros Hne. split; [by apply Hplayer|].
    apply (zone_hand_label "Player" f hands Player pv Hagg Hne).
    by apply Hplayer.
Qed.

Lemma frame_texts_shown_witness :
  aggregate (player_only_frame 255) = Ok ([], ["KC"; "5C"; "QC"]) ∧
  frame_texts initial_state (player_only_frame 255) =
    Ok [ {| text_content := "Player: BUST"; text_x := 50; text_y := 410 |} ] ∧
  (game_over initial_state = false →
   ∃ dealer_value player_value : Z,
     hand_values initial_state ([], ["KC"; "5C"; "QC"])
       = Ok (dealer_value, player_value) ∧
     [ {| text_content := "Player: BUST"; text_x := 50; text_y := 410 |} ] =
       ((if decide (@nil string = []) then []
         else [ {| text_content := hand_label "Dealer" dealer_value;
                   text_x := 50; text_y := 50 |} ]) ++
        (if decide (["KC"; "5C"; "QC"] = []) then []
         else [ {| text_content := hand_label "Player" player_value;
                   text_x := 50; text_y := 720 `div` 2 + 50 |} ]))%list ∧
     (@nil string ≠ [] →
      calculate_blackjack_value [] = Ok dealer_value ∧
      1 ≤ dealer_value ∧
      (21 < dealer_value → hand_label "Dealer" dealer_value = "Dealer: BUST") ∧
      (dealer_value ≤ 21 →
       hand_label "Dealer" dealer_value = "Dealer: " +:+ pretty dealer_value)) ∧
     (["KC"; "5C"; "QC"] ≠ [] →
      calculate_blackjack_value ["KC"; "5C"; "QC"] = Ok player_value ∧
      1 ≤ player_value ∧
      (21 < player_value → hand_label "Player" player_value = "Player: BUST") ∧
      (player_value ≤ 21 →
       hand_label "Player" player_value = "Player: " +:+ pretty player_value))).
Proof.
  assert (aggregate (player_only_frame 255) = Ok ([], ["KC"; "5C"; "QC"]))
    as Hagg by reflexivity.
  assert (frame_texts initial_state (player_only_frame 255) =
            Ok [ {| text_content := "Player: BUST"; text_x := 50; text_y := 410 |} ])
    as Htexts by reflexivity.
  split; [exact Hagg|]. split; [exact Htexts|].
  exact (proj2 (frame_texts_shown _ _ _ _ Hagg Htexts)).
Defined.
